(** * Notion -> Gemini -> Slack pipeline: a shallow embedding

    The development follows the Python sources:
    - [clients/notion_client.py]  (attribute extractor, item source, committer)
    - [clients/gemini_client.py]  (content transformer)
    - [clients/slack_client.py]   (notifier)
    - [main.py]                   (pipeline orchestrator, entry point)
    - [config.py]                 (loading the configuration)

    Python values that come out of [response.json()] are modelled by the
    type [PyVal]; Python's dynamic checks (an attribute that does not exist,
    a value that cannot be iterated, a non-string in [str.join]) are modelled
    by the exceptions the interpreter raises.  The three remote services are
    oracles whose answers may depend on every call made so far.  Calls to
    the logger change no result and are left out; the constant headers and
    timeouts of the requests are left out of the recorded calls. *)

From Stdlib Require Import String Ascii NArith ZArith List Lia.
From Stdlib Require Import DecimalString DecimalPos.
From stdpp Require Import base list numbers option.

Set Default Proof Using "Type".
Set Warnings "-register-all".

(** ** Python strings

    A Python [str] is a sequence of Unicode code points; [len], slicing and
    [strip] all count code points. *)

Abbreviation codepoint := N (only parsing).
Abbreviation str := (list N) (only parsing).

(** Literals of the sources are written as UTF-8 text and decoded. *)
Fixpoint utf8_decode (bs : list N) : str :=
  match bs with
  | [] => []
  | b0 :: r0 =>
      if (b0 <? 128)%N then b0 :: utf8_decode r0
      else match r0 with
           | [] => [b0]
           | b1 :: r1 =>
               if (b0 <? 224)%N
               then ((b0 - 192) * 64 + (b1 - 128))%N :: utf8_decode r1
               else match r1 with
                    | [] => [b0; b1]
                    | b2 :: r2 =>
                        if (b0 <? 240)%N
                        then ((b0 - 224) * 4096 + (b1 - 128) * 64 + (b2 - 128))%N
                               :: utf8_decode r2
                        else match r2 with
                             | [] => [b0; b1; b2]
                             | b3 :: r3 =>
                                 ((b0 - 240) * 262144 + (b1 - 128) * 4096
                                  + (b2 - 128) * 64 + (b3 - 128))%N
                                   :: utf8_decode r3
                             end
                    end
           end
  end.

Definition bytes_of_string (s : string) : list N :=
  map N_of_ascii (list_ascii_of_string s).

Definition u (s : string) : str := utf8_decode (bytes_of_string s).
Arguments u s%_string.

(** [str.isspace] of one character: the whitespace set that [str.strip()]
    removes. *)
Definition py_isspace (c : codepoint) : bool :=
  ((9 <=? c) && (c <=? 13) || (28 <=? c) && (c <=? 32)
   || (c =? 133) || (c =? 160) || (c =? 5760)
   || (8192 <=? c) && (c <=? 8202)
   || (c =? 8232) || (c =? 8233) || (c =? 8239) || (c =? 8287)
   || (c =? 12288))%N.

Fixpoint lstrip (s : str) : str :=
  match s with
  | [] => []
  | c :: r => if py_isspace c then lstrip r else s
  end.

(** [s.strip()] *)
Definition strip (s : str) : str := rev (lstrip (rev (lstrip s))).

(** [sep.join(parts)] for parts already known to be strings. *)
Fixpoint join (sep : str) (parts : list str) : str :=
  match parts with
  | [] => []
  | [p] => p
  | p :: rest => p ++ sep ++ join sep rest
  end.

Definition str_eqb (a b : str) : bool := bool_decide (a = b).

(** [not l] for a string or a list. *)
Definition is_empty {A} (l : list A) : bool :=
  match l with [] => true | _ => false end.

(** The newline character. *)
Definition NL : str := [10%N].

(** ** Python values *)

(** A float is carried by what the program can observe of it: its truth
    value and its [str()]. *)
Record float_obs := { float_is_zero : bool; float_repr : str }.

(** The values of [response.json()].  A dict keeps its keys in insertion
    order and holds each key once. *)
Inductive PyVal :=
| PyNone
| PyBool (b : bool)
| PyInt (z : Z)
| PyFloat (f : float_obs)
| PyStr (s : str)
| PyList (l : list PyVal)
| PyDict (d : list (str * PyVal)).

(** Exceptions.  [TypeError] and [AttributeError] are the interpreter's own;
    the three client errors are the classes declared in [clients/]. *)
Inductive PyExc :=
| TypeError (msg : str)
| AttributeError (msg : str)
| NotionClientError (msg : str)
| GeminiClientError (msg : str)
| SlackClientError (msg : str).

(** [str(e)] *)
Definition exc_str (e : PyExc) : str :=
  match e with
  | TypeError m | AttributeError m | NotionClientError m
  | GeminiClientError m | SlackClientError m => m
  end.

(** The dynamic operations that can fail. *)
Inductive DynOp := OpAttr | OpIter | OpJoin | OpHash | OpContains.

(** What the embedding leaves to the interpreter: the [repr] of a list or a
    dict, and the text of the interpreter's own error messages. *)
Class PyRuntime := {
  container_repr : PyVal -> str;
  error_text : DynOp -> PyVal -> str
}.

(** Outcome of a computation that may raise. *)
Inductive Res (A : Type) :=
| Return (a : A)
| Raise (e : PyExc).
Arguments Return {A} a.
Arguments Raise {A} e.

#[global] Instance Res_ret : MRet Res := fun _ a => Return a.
#[global] Instance Res_bind : MBind Res := fun _ _ f m =>
  match m with
  | Return a => f a
  | Raise e => Raise e
  end.
#[global] Instance Res_fmap : FMap Res := fun _ _ f m =>
  match m with
  | Return a => Return (f a)
  | Raise e => Raise e
  end.

(** Evaluate [f] on each element in order; the first exception wins. *)
Fixpoint res_mapM {A B} (f : A -> Res B) (l : list A) : Res (list B) :=
  match l with
  | [] => Return []
  | a :: r =>
      match f a with
      | Return b =>
          match res_mapM f r with
          | Return bs => Return (b :: bs)
          | Raise e => Raise e
          end
      | Raise e => Raise e
      end
  end.

(** Lookup in a dict, the first binding of the key. *)
Fixpoint dict_lookup (k : str) (d : list (str * PyVal)) : option PyVal :=
  match d with
  | [] => None
  | (k', v) :: r => if str_eqb k' k then Some v else dict_lookup k r
  end.

Definition dict_keys {V} (d : list (str * V)) : list str := map fst d.

(** [bool(v)] *)
Definition py_truthy (v : PyVal) : bool :=
  match v with
  | PyNone => false
  | PyBool b => b
  | PyInt z => negb (z =? 0)%Z
  | PyFloat f => negb (float_is_zero f)
  | PyStr s => negb (is_empty s)
  | PyList l => negb (is_empty l)
  | PyDict d => match d with [] => false | _ => true end
  end.

Definition ascii_str (s : string) : str := bytes_of_string s.

(** [str(n)] for an int. *)
Definition int_str (z : Z) : str :=
  ascii_str (NilZero.string_of_int (Z.to_int z)).

(** [v == s] for a string [s]. *)
Definition py_eq_str (v : PyVal) (s : str) : bool :=
  match v with
  | PyStr s' => str_eqb s' s
  | _ => false
  end.

Section Runtime.
Context {RT : PyRuntime}.

(** [str(v)], also what an f-string does with [{v}]. *)
Definition py_str (v : PyVal) : str :=
  match v with
  | PyNone => u"None"
  | PyBool true => u"True"
  | PyBool false => u"False"
  | PyInt z => int_str z
  | PyFloat f => float_repr f
  | PyStr s => s
  | PyList _ | PyDict _ => container_repr v
  end.

(** [v.get(key, dflt)]: only a dict has the method. *)
Definition py_get (v : PyVal) (key : str) (dflt : PyVal) : Res PyVal :=
  match v with
  | PyDict d => Return (default dflt (dict_lookup key d))
  | _ => Raise (AttributeError (error_text OpAttr v))
  end.

(** The elements a [for] loop or a generator draws from [v]: the items of a
    list, the keys of a dict, the characters of a string. *)
Definition py_iter (v : PyVal) : Res (list PyVal) :=
  match v with
  | PyList l => Return l
  | PyDict d => Return (map PyStr (dict_keys d))
  | PyStr s => Return (map (fun c => PyStr [c]) s)
  | _ => Raise (TypeError (error_text OpIter v))
  end.

Fixpoint all_strs (l : list PyVal) : option (list str) :=
  match l with
  | [] => Some []
  | PyStr s :: r => option_map (cons s) (all_strs r)
  | _ :: _ => None
  end.

(** [sep.join(items)]: every item has to be a string. *)
Definition py_join (sep : str) (items : list PyVal) : Res str :=
  match all_strs items with
  | Some parts => Return (join sep parts)
  | None => Raise (TypeError (error_text OpJoin (PyList items)))
  end.

(** [sep.join(t.get(key, "") for t in v)]: the generator is drained first,
    then the parts are joined. *)
Definition join_field (sep : str) (key : str) (v : PyVal) : Res str :=
  ts ← py_iter v;
  parts ← res_mapM (fun t => py_get t key (PyStr [])) ts;
  py_join sep parts.

(** ** Attribute extractor: [NotionClient._extract_property_value] *)

Definition _extract_property_value (prop : PyVal) : Res PyVal :=
  prop_type ← py_get prop (u"type") (PyStr []);
  if py_eq_str prop_type (u"title") then
    runs ← py_get prop (u"title") (PyList []);
    PyStr <$> join_field [] (u"plain_text") runs
  else if py_eq_str prop_type (u"rich_text") then
    runs ← py_get prop (u"rich_text") (PyList []);
    PyStr <$> join_field [] (u"plain_text") runs
  else if py_eq_str prop_type (u"number") then
    n ← py_get prop (u"number") (PyStr []);
    Return (PyStr (py_str n))
  else if py_eq_str prop_type (u"select") then
    select ← py_get prop (u"select") PyNone;
    if py_truthy select then py_get select (u"name") (PyStr [])
    else Return (PyStr [])
  else if py_eq_str prop_type (u"multi_select") then
    opts ← py_get prop (u"multi_select") (PyList []);
    PyStr <$> join_field (u", ") (u"name") opts
  else if py_eq_str prop_type (u"date") then
    date ← py_get prop (u"date") PyNone;
    if py_truthy date then
      start ← py_get date (u"start") (PyStr []);
      end_ ← py_get date (u"end") (PyStr []);
      if py_truthy end_
      then Return (PyStr (py_str start ++ u" - " ++ py_str end_))
      else Return start
    else Return (PyStr [])
  else if py_eq_str prop_type (u"checkbox") then
    b ← py_get prop (u"checkbox") (PyBool false);
    Return (PyStr (py_str b))
  else if py_eq_str prop_type (u"url") then
    v ← py_get prop (u"url") (PyStr []);
    Return (if py_truthy v then v else PyStr [])
  else if py_eq_str prop_type (u"email") then
    v ← py_get prop (u"email") (PyStr []);
    Return (if py_truthy v then v else PyStr [])
  else if py_eq_str prop_type (u"phone_number") then
    v ← py_get prop (u"phone_number") (PyStr []);
    Return (if py_truthy v then v else PyStr [])
  else if py_eq_str prop_type (u"people") then
    ps ← py_get prop (u"people") (PyList []);
    PyStr <$> join_field (u", ") (u"name") ps
  else if py_eq_str prop_type (u"relation") then
    rs ← py_get prop (u"relation") (PyList []);
    PyStr <$> join_field (u", ") (u"id") rs
  else
    Return (PyStr []).

End Runtime.

(** ** Configuration: the dataclasses of [config.py] *)

Record NotionConfig := {
  api_key : str;
  database_id : str;
  status_property : str;
  content_properties : list str
}.

Record SlackConfig := {
  webhook_url : str;
  channel : option str
}.

Record AppConfig := {
  notion : NotionConfig;
  slack : SlackConfig
}.

(** ** The remote services

    Every request that leaves the process is recorded, in order, in a log.
    A service answers a request knowing the log so far, so its behaviour may
    change from one call to the next. *)

Inductive Call :=
| NotionRequest (method url : str) (json_data : option PyVal)
| SlackPost (url : str) (payload : PyVal)
| GenerateContent (content : str).

(** What [requests] gives back: [raise_for_status] raised an [HTTPError],
    another [RequestException] was raised (connection, timeout, a body that
    is not JSON), or the body of the response. *)
Inductive HttpReply (B : Type) :=
| HTTPError (e : str)
| RequestException (e : str)
| HttpOk (body : B).
Arguments HTTPError {B} e.
Arguments RequestException {B} e.
Arguments HttpOk {B} body.

(** What the generative model gives back: an exception of the library
    (also when reading [response.text] raises), or a response and its
    [text]. *)
Inductive GenReply :=
| GenRaises (e : str)
| GenResponse (text : str).

Record World := {
  notion_api : list Call -> str -> str -> option PyVal -> HttpReply PyVal;
  slack_webhook : list Call -> str -> PyVal -> HttpReply str;
  gemini_model : list Call -> str -> GenReply
}.

(** Computations that call the services: the log is threaded through and
    survives an exception. *)
Definition M (A : Type) : Type := list Call -> Res A * list Call.

#[global] Instance M_ret : MRet M := fun _ a h => (Return a, h).
#[global] Instance M_bind : MBind M := fun _ _ f m h =>
  match m h with
  | (Return a, h') => f a h'
  | (Raise e, h') => (Raise e, h')
  end.

Definition lift {A} (r : Res A) : M A := fun h => (r, h).
Definition raise {A} (e : PyExc) : M A := fun h => (Raise e, h).

(** [try: m  except ...: handler e] *)
Definition catch {A} (m : M A) (handler : PyExc -> M A) : M A := fun h =>
  match m h with
  | (Return a, h') => (Return a, h')
  | (Raise e, h') => handler e h'
  end.

(** A [for] loop that builds one result per element. *)
Fixpoint mapM {A B} (f : A -> M B) (l : list A) : M (list B) :=
  match l with
  | [] => mret []
  | a :: r => b ← f a; bs ← mapM f r; mret (b :: bs)
  end.

(** [content[k] = v] on an insertion-ordered dict. *)
Fixpoint dict_set {V} (k : str) (v : V) (d : list (str * V)) : list (str * V) :=
  match d with
  | [] => [(k, v)]
  | (k', v') :: r =>
      if str_eqb k' k then (k', v) :: r else (k', v') :: dict_set k v r
  end.

Fixpoint is_prefix (p s : str) : bool :=
  match p, s with
  | [], _ => true
  | _ :: _, [] => false
  | a :: p', b :: s' => (a =? b)%N && is_prefix p' s'
  end.

(** [p in s] for two strings. *)
Fixpoint is_substring (p s : str) : bool :=
  is_prefix p s ||
  match s with
  | [] => false
  | _ :: s' => is_substring p s'
  end.

(** ** Item source and state committer: [NotionClient] *)

Record NotionItem := {
  page_id : PyVal;
  title : PyVal;
  content : list (str * PyVal);
  url : PyVal
}.

Definition BASE_URL : str := u"https://api.notion.com/v1".

(** The name of the body field, U+672C U+6587. *)
Definition BODY : str := u"本文".

(** The default title, "(" U+7121 U+984C ")". *)
Definition UNTITLED : str := u"(無題)".

Section Clients.
Context {RT : PyRuntime}.
Variable w : World.
Variable config : AppConfig.

Definition _make_request (method endpoint : str) (json_data : option PyVal)
  : M PyVal := fun h =>
  let url := BASE_URL ++ endpoint in
  let h' := h ++ [NotionRequest method url json_data] in
  match notion_api w h method url json_data with
  | HttpOk body => (Return body, h')
  | HTTPError e =>
      (Raise (NotionClientError (u"Notion APIエラー: " ++ e)), h')
  | RequestException e =>
      (Raise (NotionClientError (u"Notion API接続エラー: " ++ e)), h')
  end.

(** [block.get(block_type, {})]: the key is whatever ["type"] held. *)
Definition py_get_dyn (v key dflt : PyVal) : Res PyVal :=
  match v with
  | PyDict d =>
      match key with
      | PyStr k => Return (default dflt (dict_lookup k d))
      | PyList _ | PyDict _ => Raise (TypeError (error_text OpHash key))
      | _ => Return dflt
      end
  | _ => Raise (AttributeError (error_text OpAttr v))
  end.

(** ["rich_text" in block_data] *)
Definition py_contains (needle : str) (v : PyVal) : Res bool :=
  match v with
  | PyDict d => Return (bool_decide (needle ∈ dict_keys d))
  | PyList l => Return (existsb (fun x => py_eq_str x needle) l)
  | PyStr s => Return (is_substring needle s)
  | _ => Raise (TypeError (error_text OpContains v))
  end.

(** The loop of [_get_page_content] over the blocks. *)
Fixpoint block_texts (blocks : list PyVal) (content_parts : list str)
  : Res (list str) :=
  match blocks with
  | [] => Return content_parts
  | block :: rest =>
      block_type ← py_get block (u"type") (PyStr []);
      block_data ← py_get_dyn block block_type (PyDict []);
      has ← py_contains (u"rich_text") block_data;
      if (has : bool) then
        runs ← py_get block_data (u"rich_text") (PyList []);
        text ← join_field [] (u"plain_text") runs;
        if is_empty text
        then block_texts rest content_parts
        else block_texts rest (content_parts ++ [text])
      else block_texts rest content_parts
  end.

Definition _get_page_content (pid : PyVal) : M str :=
  catch
    (response ← _make_request (u"GET")
       (u"/blocks/" ++ py_str pid ++ u"/children?page_size=100") None;
     blocks ← lift (py_get response (u"results") (PyList []));
     bl ← lift (py_iter blocks);
     content_parts ← lift (block_texts bl []);
     mret (join NL content_parts))
    (fun e => match e with
              | NotionClientError _ => mret []
              | _ => raise e
              end).

(** The loop that looks for the property of type [title]. *)
Fixpoint find_title (props : list (str * PyVal)) : Res PyVal :=
  match props with
  | [] => Return (PyStr [])
  | (_, prop_value) :: rest =>
      t ← py_get prop_value (u"type") PyNone;
      if py_eq_str t (u"title") then _extract_property_value prop_value
      else find_title rest
  end.

(** The loop over the configured content properties. *)
Fixpoint collect_content (properties : list (str * PyVal))
    (names : list str) (acc : list (str * PyVal))
  : Res (list (str * PyVal)) :=
  match names with
  | [] => Return acc
  | prop_name :: rest =>
      match dict_lookup prop_name properties with
      | Some prop =>
          value ← _extract_property_value prop;
          collect_content properties rest (dict_set prop_name value acc)
      | None => collect_content properties rest acc
      end
  end.

(** [properties.items()] *)
Definition py_items (v : PyVal) : Res (list (str * PyVal)) :=
  match v with
  | PyDict d => Return d
  | _ => Raise (AttributeError (error_text OpAttr v))
  end.

(** The body of the loop of [get_unprocessed_items]: one record of the
    query result becomes one item. *)
Definition item_of_result (result : PyVal) : M NotionItem :=
  pid ← lift (py_get result (u"id") (PyStr []));
  properties ← lift (py_get result (u"properties") (PyDict []));
  link ← lift (py_get result (u"url") (PyStr []));
  props ← lift (py_items properties);
  t ← lift (find_title props);
  c ← lift (collect_content props (content_properties (notion config)) []);
  c' ← (if bool_decide (BODY ∈ content_properties (notion config))
           && negb (py_truthy (default PyNone (dict_lookup BODY c)))
        then
          page_content ← _get_page_content pid;
          mret (if is_empty page_content then c
                else dict_set BODY (PyStr page_content) c)
        else mret c);
  mret {| page_id := pid;
          title := if py_truthy t then t else PyStr UNTITLED;
          content := c';
          url := link |}.

Definition query_data : PyVal :=
  PyDict [(u"filter",
           PyDict [(u"property", PyStr (status_property (notion config)));
                   (u"checkbox", PyDict [(u"equals", PyBool false)])]);
          (u"page_size", PyInt 100)].

Definition get_unprocessed_items : M (list NotionItem) :=
  response ← _make_request (u"POST")
    (u"/databases/" ++ database_id (notion config) ++ u"/query")
    (Some query_data);
  results ← lift (py_get response (u"results") (PyList []));
  rs ← lift (py_iter results);
  mapM item_of_result rs.

Definition mark_as_processed (pid : PyVal) : M bool :=
  catch
    (_ ← _make_request (u"PATCH") (u"/pages/" ++ py_str pid)
       (Some (PyDict [(u"properties",
          PyDict [(status_property (notion config),
                   PyDict [(u"checkbox", PyBool true)])])]));
     mret true)
    (fun e => match e with
              | NotionClientError _ => mret false
              | _ => raise e
              end).

End Clients.

(** ** Content transformer: [GeminiClient] *)

Definition NO_VALID_RESPONSE : str :=
  u"Gemini APIから有効な応答を取得できませんでした".

Section Gemini.
Variable w : World.

(** [GeminiClient.process], with the default generation settings. *)
Definition process (text : str) : M str := fun h =>
  if is_empty text || is_empty (strip text) then
    (Return [], h)
  else
    let h' := h ++ [GenerateContent text] in
    match gemini_model w h text with
    | GenResponse result =>
        if is_empty result
        then (Raise (GeminiClientError NO_VALID_RESPONSE), h')
        else (Return result, h')
    | GenRaises e =>
        (Raise (GeminiClientError (u"Gemini API呼び出しに失敗: " ++ e)), h')
    end.

End Gemini.

(** ** Notifier: [SlackClient] *)

Definition ELLIPSIS : str := u"...".

(** Lines 103-105 of [send_processed_result]: the shortened original. *)
Definition truncated_original (original_content : str) : str :=
  if 300 <? length original_content
  then take 300 original_content ++ ELLIPSIS
  else original_content.

Section Slack.
Context {RT : PyRuntime}.
Variable w : World.
Variable config : AppConfig.

(** The payload of [send_message]; no caller passes [attachments]. *)
Definition payload_of (text : str) (blocks : list PyVal) : PyVal :=
  PyDict ([(u"text", PyStr text)]
          ++ (if is_empty blocks then []
              else [(u"blocks", PyList blocks)])
          ++ (match channel (slack config) with
              | Some c => if is_empty c then []
                          else [(u"channel", PyStr c)]
              | None => []
              end)).

(** [SlackClient.send_message] *)
Definition send_message (text : str) (blocks : list PyVal) : M bool :=
  fun h =>
  let payload := payload_of text blocks in
  let h' := h ++ [SlackPost (webhook_url (slack config)) payload] in
  match slack_webhook w h (webhook_url (slack config)) payload with
  | HttpOk body => (Return (str_eqb body (u"ok")), h')
  | HTTPError e => (Raise (SlackClientError (u"Slack送信エラー: " ++ e)), h')
  | RequestException e =>
      (Raise (SlackClientError (u"Slack接続エラー: " ++ e)), h')
  end.

Definition plain_text (s : str) : PyVal :=
  PyDict [(u"type", PyStr (u"plain_text")); (u"text", PyStr s);
          (u"emoji", PyBool true)].

Definition mrkdwn (s : str) : PyVal :=
  PyDict [(u"type", PyStr (u"mrkdwn")); (u"text", PyStr s)].

Definition button_block (label : str) (link : PyVal) : PyVal :=
  PyDict [(u"type", PyStr (u"actions"));
          (u"elements",
           PyList [PyDict [(u"type", PyStr (u"button"));
                           (u"text", plain_text label);
                           (u"url", link)]])].

(** The [blocks] list of [send_processed_result]. *)
Definition result_blocks (title_ : PyVal) (processed_result : str)
    (notion_url : PyVal) : list PyVal :=
  [PyDict [(u"type", PyStr (u"header"));
           (u"text", plain_text (u"📝 " ++ py_str title_))];
   PyDict [(u"type", PyStr (u"divider"))];
   PyDict [(u"type", PyStr (u"section"));
           (u"text", mrkdwn (take 3000 processed_result))]]
  ++ (if py_truthy notion_url
      then [button_block (u"📄 Notionで開く") notion_url] else [])
  ++ [PyDict [(u"type", PyStr (u"context"));
              (u"elements",
               PyList [mrkdwn (u"🤖 _Gemini APIで自動処理されました_")])]].

(** The part of the fallback text that comes from the result. *)
Definition fallback_result (processed_result : str) : str :=
  take 500 processed_result ++ ELLIPSIS.

Definition fallback_text (title_ : PyVal) (processed_result : str) : str :=
  u"📝 " ++ py_str title_ ++ NL ++ NL ++ fallback_result processed_result.

Definition send_processed_result (title_ : PyVal) (original_content : str)
    (processed_result : str) (notion_url : PyVal) : M bool :=
  let truncated := truncated_original original_content in
  send_message (fallback_text title_ processed_result)
               (result_blocks title_ processed_result notion_url).

Definition error_blocks (title_ : PyVal) (error_message : str)
    (notion_url : PyVal) : list PyVal :=
  [PyDict [(u"type", PyStr (u"header"));
           (u"text", plain_text (u"⚠️ 処理エラー"))];
   PyDict [(u"type", PyStr (u"section"));
           (u"text", mrkdwn (u"*対象:* " ++ py_str title_ ++ NL
                           ++ u"*エラー:* " ++ error_message))]]
  ++ (if py_truthy notion_url
      then [button_block (u"📄 Notionで確認") notion_url] else []).

Definition send_error_notification (title_ : PyVal) (error_message : str)
    (notion_url : PyVal) : M bool :=
  send_message
    (u"⚠️ 処理エラー: " ++ py_str title_ ++ u" - " ++ error_message)
    (error_blocks title_ error_message notion_url).

End Slack.

(** ** Pipeline orchestrator: [main.py] *)

Record ProcessingResult := {
  item : NotionItem;
  success : bool;
  gemini_result : str;
  error_message : str
}.

(** "content is empty" *)
Definition EMPTY_CONTENT : str := u"コンテンツが空です".

(** "no valid response from Gemini" *)
Definition NO_GEMINI_RESULT : str := u"Geminiから有効な応答がありませんでした".

(** "unexpected error: " *)
Definition UNEXPECTED : str := u"予期しないエラー: ".

Definition failure (it : NotionItem) (msg : str) : ProcessingResult :=
  {| item := it; success := false; gemini_result := []; error_message := msg |}.

Section Pipeline.
Context {RT : PyRuntime}.
Variable w : World.
Variable config : AppConfig.

(** [f"# {item.title}"] *)
Definition heading (it : NotionItem) : str := u"# " ++ py_str (title it).

(** The pairs of [item.content.items()] whose value is truthy. *)
Definition filled (it : NotionItem) : list (str * PyVal) :=
  List.filter (fun kv => py_truthy kv.2) (content it).

Definition _build_gemini_input (it : NotionItem) : str :=
  join NL
    (heading it ::
     map (fun kv => NL ++ u"## " ++ kv.1 ++ NL ++ py_str kv.2) (filled it)).

(** The test that makes [process_single_item] skip an item. *)
Definition skipped (it : NotionItem) : bool :=
  is_empty (strip (_build_gemini_input it))
  || str_eqb (strip (_build_gemini_input it)) (heading it).

(** The summary of the original content handed to the notifier. *)
Definition original_content (it : NotionItem) : str :=
  join NL (map (fun kv => kv.1 ++ u": " ++ py_str kv.2) (filled it)).

Definition process_single_item (it : NotionItem) : M ProcessingResult :=
  catch
    (let gemini_input := _build_gemini_input it in
     if skipped it
     then mret (failure it EMPTY_CONTENT)
     else
       result ← process w gemini_input;
       if is_empty result
       then mret (failure it NO_GEMINI_RESULT)
       else
         slack_success ←
           send_processed_result w config (title it) (original_content it)
             result (url it);
         notion_update_success ← mark_as_processed w config (page_id it);
         mret {| item := it; success := true; gemini_result := result;
                 error_message := [] |})
    (fun e => match e with
              | GeminiClientError msg => mret (failure it msg)
              | _ => mret (failure it (UNEXPECTED ++ exc_str e))
              end).

(** The optional error notification that follows a failed item. *)
Definition notify_failure (result : ProcessingResult) : M unit :=
  if negb (success result) && negb (is_empty (error_message result))
  then
    catch
      (_ ← send_error_notification w config (title (item result))
             (error_message result) (url (item result));
       mret tt)
      (fun e => match e with
                | SlackClientError _ => mret tt
                | _ => raise e
                end)
  else mret tt.

(** The [for item in items] loop of [run]. *)
Fixpoint run_loop (items : list NotionItem) : M (list ProcessingResult) :=
  match items with
  | [] => mret []
  | it :: rest =>
      result ← process_single_item it;
      _ ← notify_failure result;
      results ← run_loop rest;
      mret (result :: results)
  end.

Definition run (dry_run : bool) : M (list ProcessingResult) :=
  fetched ←
    catch (items ← get_unprocessed_items w config; mret (Some items))
          (fun e => match e with
                    | NotionClientError _ => mret None
                    | _ => raise e
                    end);
  match fetched with
  | None => mret []
  | Some items =>
      if is_empty items then mret []
      else if dry_run then mret []
      else run_loop items
  end.

End Pipeline.

(** ** Loading the configuration: [config.py] *)

(** The environment, after [load_dotenv]: [os.getenv(key)]. *)
Definition Env := str -> option str.

(** [os.getenv(key, dflt)] *)
Definition getenv_or (env : Env) (key dflt : str) : str :=
  default dflt (env key).

(** What loading gives: the value, or [ValueError] and its message. *)
Inductive Loading (A : Type) :=
| Loaded (a : A)
| ValueError (msg : str).
Arguments Loaded {A} a.
Arguments ValueError {A} msg.

#[global] Instance Loading_ret : MRet Loading := fun _ a => Loaded a.
#[global] Instance Loading_bind : MBind Loading := fun _ _ f m =>
  match m with
  | Loaded a => f a
  | ValueError msg => ValueError msg
  end.

(** [_get_required_env] *)
Definition _get_required_env (env : Env) (key : str) : Loading str :=
  match env key with
  | Some value =>
      if is_empty value
      then ValueError (u"環境変数 " ++ key ++ u" が設定されていません")
      else Loaded value
  | None => ValueError (u"環境変数 " ++ key ++ u" が設定されていません")
  end.

(** [s.split(sep)] for a separator of one character. *)
Fixpoint split_on (sep : codepoint) (s : str) : list str :=
  match s with
  | [] => [[]]
  | c :: r =>
      if (c =? sep)%N then [] :: split_on sep r
      else match split_on sep r with
           | p :: ps => (c :: p) :: ps
           | [] => [[c]]
           end
  end.

(** [s.replace(old, new)] for an [old] of the two characters [a], [b]:
    the occurrences are taken from the left and do not overlap. *)
Fixpoint replace2 (a b : codepoint) (new : str) (s : str) : str :=
  match s with
  | x :: t =>
      match t with
      | y :: r =>
          if (x =? a)%N && (y =? b)%N then new ++ replace2 a b new r
          else x :: replace2 a b new t
      | [] => [x]
      end
  | [] => []
  end.

(** The two characters backslash, n. *)
Definition BACKSLASH_N : str := [92%N; 110%N].

Definition DEFAULT_SYSTEM_INSTRUCTION : str :=
  strip (u"
命令
あなたは優秀なプロジェクトマネージャー兼書記です。提供された会議の文字起こしデータを分析し、以下のフォーマットに従って明確かつ構造化された議事録を作成してください。

出力フォーマットと記載ルール
1. 全体の目的
このミーティング（または記録）が何のために行われたのか、1〜2文で簡潔に定義してください。
最終的なゴールが何かを明記してください。
2. エグゼクティブサマリー（改善の経緯と詳細進捗）
会議全体の内容を、項目数を限定せずに可能な限り詳しく要約してください。
単なる結果の列挙ではなく、**「改善の流れ（どのような経緯でその結論に至ったか）」**が分かるように記載してください。
特に進捗に関しては、現状のステータスと変化点を漏らさず記述してください。
3. 重要な質疑応答・検収要件（会話形式）
「検収（承認・OKが出る基準）」や「仕様の確認」に関するやり取りを重点的に抽出してください。
誰が何を懸念し、どう回答されたかが分かるよう、以下の会話形式で記載してください。
Q（質問/懸念）: [具体的な質問内容]
A（回答/決定）: [回答内容および決定した検収基準]
4. 決定されたタスク（ToDo）
具体的なアクションアイテムを抽出してください。可能な限り担当者を明記してください。

5. 全体のスケジュール感
会話に出てきた期限、マイルストーン、次回の予定などを時系列で整理してください。
具体的な日付がない場合でも、「来週中」「○○の後」といった時間的な文脈を拾ってください。
").

Record GeminiConfig := {
  gemini_api_key : str;
  model : str;
  system_instruction : str
}.

(** [AppConfig] with its three parts; [app] holds the two that the
    pipeline reads after the clients are built. *)
Record LoadedConfig := {
  app : AppConfig;
  gemini : GeminiConfig
}.

(** [[p.strip() for p in raw.split(",") if p.strip()]] *)
Definition parse_properties (raw : str) : list str :=
  map strip (List.filter (fun p => negb (is_empty (strip p)))
               (split_on 44%N raw)).

Definition load_config (env : Env) : Loading LoadedConfig :=
  let content_props_raw :=
    getenv_or env (u"NOTION_CONTENT_PROPERTIES") (u"タイトル,本文") in
  let props := parse_properties content_props_raw in
  notion_key ← _get_required_env env (u"NOTION_API_KEY");
  db ← _get_required_env env (u"NOTION_DATABASE_ID");
  let notion_config :=
    {| api_key := notion_key; database_id := db;
       status_property := getenv_or env (u"NOTION_STATUS_PROPERTY") (u"処理済み");
       content_properties := props |} in
  let given := getenv_or env (u"GEMINI_SYSTEM_INSTRUCTION") [] in
  let instruction :=
    if is_empty given then DEFAULT_SYSTEM_INSTRUCTION else given in
  let instruction := replace2 92%N 110%N NL instruction in
  gemini_key ← _get_required_env env (u"GEMINI_API_KEY");
  let gemini_config :=
    {| gemini_api_key := gemini_key;
       model := getenv_or env (u"GEMINI_MODEL") (u"gemini-1.5-pro");
       system_instruction := instruction |} in
  hook ← _get_required_env env (u"SLACK_WEBHOOK_URL");
  let slack_config :=
    {| webhook_url := hook;
       channel := let c := getenv_or env (u"SLACK_CHANNEL") [] in
                  if is_empty c then None else Some c |} in
  mret {| app := {| notion := notion_config; slack := slack_config |};
          gemini := gemini_config |}.

(** ** Entry point: [main] *)




(** ** Vocabulary of the batch properties *)

Section Batch.
Context {RT : PyRuntime}.
Variable w : World.
Variable config : AppConfig.

(** The log once [it] has gone through the body of the loop of [run]. *)
Definition log_after_item (it : NotionItem) (h : list Call) : list Call :=
  ((result ← process_single_item w config it;
    notify_failure w config result) h).2.

(** The log when the loop of [run], started in [h], reaches position [k]. *)
Definition log_before (items : list NotionItem) (h : list Call) (k : nat)
  : list Call :=
  foldl (fun h' it => log_after_item it h') h (take k items).

(** The own processing of [it] succeeds in [h]: the item is not skipped,
    the transformer returns a text, and the success notification does not
    raise. *)
Definition item_succeeds (it : NotionItem) (h : list Call) : bool :=
  negb (skipped it) &&
  match process w (_build_gemini_input it) h with
  | (Return result, h1) =>
      negb (is_empty result) &&
      match send_processed_result w config (title it) (original_content it)
              result (url it) h1 with
      | (Return _, _) => true
      | (Raise _, _) => false
      end
  | (Raise _, _) => false
  end.

(** The one request of [get_unprocessed_items] to the database. *)
Definition query_url : str :=
  BASE_URL ++ u"/databases/" ++ database_id (notion config) ++ u"/query".

Definition query_call : Call :=
  NotionRequest (u"POST") query_url (Some (query_data config)).

(** The query meets a transport failure in [h]. *)
Definition query_fails (h : list Call) : bool :=
  match notion_api w h (u"POST") query_url (Some (query_data config)) with
  | HttpOk _ => false
  | HTTPError _ | RequestException _ => true
  end.

(** The records the query answers with in [h]. *)
Definition query_records (h : list Call) : Res (list PyVal) :=
  match notion_api w h (u"POST") query_url
          (Some (query_data config)) with
  | HttpOk body =>
      results ← py_get body (u"results") (PyList []); py_iter results
  | HTTPError e | RequestException e => Raise (NotionClientError e)
  end.

(** The log when the loop of [get_unprocessed_items] over [records],
    started in [h], reaches position [k]. *)
Definition fetch_log_before (records : list PyVal) (h : list Call) (k : nat)
  : list Call :=
  foldl (fun h' record => (item_of_result w config record h').2) h
        (take k records).

(** The content of the item [it] that the loop of [get_unprocessed_items]
    builds in the log [h] from a record with the properties [props], the
    log being [h'] afterwards.  Every key is a configured field; a
    configured field of the record is a key; a configured field that the
    record lacks is no key, except the body field: for it the page content
    is fetched, in [h], and the key is there exactly when that text is not
    empty, with that text as its value. *)
Definition content_from_record (props : list (str * PyVal))
    (it : NotionItem) (h h' : list Call) : Prop :=
  (∀ k, k ∈ dict_keys (content it) -> k ∈ content_properties (notion config))
  ∧ (∀ k, k ∈ content_properties (notion config) -> k ∈ dict_keys props ->
          k ∈ dict_keys (content it))
  ∧ (∀ k, k ∈ content_properties (notion config) -> k ∉ dict_keys props ->
          k ≠ BODY -> k ∉ dict_keys (content it))
  ∧ (BODY ∈ content_properties (notion config) -> BODY ∉ dict_keys props ->
     ∃ text, _get_page_content w (page_id it) h = (Return text, h')
             ∧ (text ≠ [] ->
                dict_lookup BODY (content it) = Some (PyStr text))
             ∧ (text = [] -> BODY ∉ dict_keys (content it))).

End Batch.

(** Every string of a value: the keys and the texts, at any depth. *)
Fixpoint py_strings (v : PyVal) : list str :=
  match v with
  | PyStr s => [s]
  | PyList l => concat (map py_strings l)
  | PyDict d => concat (map (fun kv => let '(k, x) := kv in k :: py_strings x) d)
  | _ => []
  end.

(** An exception that is not the store client's own. *)
Definition no_client_error {A} (r : Res A) : Prop :=
  match r with
  | Raise (NotionClientError _) => False
  | _ => True
  end.

(** ** The shape of an attribute value

    An attribute value is tagged by its ["type"] and carries the raw data of
    its kind under the key of the same name.  The raw data is optional; where
    the store may send [null] the shape says so.  A tag outside the supported
    set comes with raw data of any shape. *)

Definition SUPPORTED_KINDS : list str :=
  [u"title"; u"rich_text"; u"number"; u"select"; u"multi_select"; u"date";
   u"checkbox"; u"url"; u"email"; u"phone_number"; u"people"; u"relation"].

Definition is_str (v : PyVal) : bool :=
  match v with PyStr _ => true | _ => false end.

Definition is_bool (v : PyVal) : bool :=
  match v with PyBool _ => true | _ => false end.

(** A JSON number; the text of a float is never empty. *)
Definition is_number (v : PyVal) : bool :=
  match v with
  | PyInt _ => true
  | PyFloat f => negb (is_empty (float_repr f))
  | _ => false
  end.

Definition nullable (ok : PyVal -> bool) (v : PyVal) : bool :=
  match v with PyNone => true | _ => ok v end.

(** The key is absent, or its value has the shape [ok]. *)
Definition opt_field (d : list (str * PyVal)) (key : str)
    (ok : PyVal -> bool) : bool :=
  match dict_lookup key d with
  | None => true
  | Some v => ok v
  end.

(** An object whose field [key], when present, is a string. *)
Definition obj_with (key : str) (v : PyVal) : bool :=
  match v with
  | PyDict d => opt_field d key is_str
  | _ => false
  end.

Definition array_of (ok : PyVal -> bool) (v : PyVal) : bool :=
  match v with
  | PyList l => forallb ok l
  | _ => false
  end.

Definition is_date (v : PyVal) : bool :=
  match v with
  | PyDict d => opt_field d (u"start") is_str
                && opt_field d (u"end") (nullable is_str)
  | _ => false
  end.

(** The kind of an attribute value: its tag when it is a string. *)
Definition kind_of (prop : PyVal) : option str :=
  match prop with
  | PyDict d =>
      match dict_lookup (u"type") d with
      | Some (PyStr t) => Some t
      | _ => None
      end
  | _ => None
  end.

Definition supported_kind (prop : PyVal) : bool :=
  match kind_of prop with
  | Some t => bool_decide (t ∈ SUPPORTED_KINDS)
  | None => false
  end.

Definition raw_shape (t : str) (d : list (str * PyVal)) : bool :=
  if str_eqb t (u"title") then
    opt_field d (u"title") (array_of (obj_with (u"plain_text")))
  else if str_eqb t (u"rich_text") then
    opt_field d (u"rich_text") (array_of (obj_with (u"plain_text")))
  else if str_eqb t (u"number") then
    opt_field d (u"number") (nullable is_number)
  else if str_eqb t (u"select") then
    opt_field d (u"select") (nullable (obj_with (u"name")))
  else if str_eqb t (u"multi_select") then
    opt_field d (u"multi_select") (array_of (obj_with (u"name")))
  else if str_eqb t (u"date") then
    opt_field d (u"date") (nullable is_date)
  else if str_eqb t (u"checkbox") then
    opt_field d (u"checkbox") is_bool
  else if str_eqb t (u"url") then
    opt_field d (u"url") (nullable is_str)
  else if str_eqb t (u"email") then
    opt_field d (u"email") (nullable is_str)
  else if str_eqb t (u"phone_number") then
    opt_field d (u"phone_number") (nullable is_str)
  else if str_eqb t (u"people") then
    opt_field d (u"people") (array_of (obj_with (u"name")))
  else if str_eqb t (u"relation") then
    opt_field d (u"relation") (array_of (obj_with (u"id")))
  else true.

(** [prop] is an attribute value: a tagged object whose raw data has the
    shape of its kind. *)
Definition attribute_value (prop : PyVal) : bool :=
  match prop with
  | PyDict d =>
      match kind_of prop with
      | Some t => raw_shape t d
      | None => true
      end
  | _ => false
  end.

(** ** The shape of the store's answers

    The answer to the query lists records: objects whose properties, when
    present, are attribute values.  The answer to the request for the
    children of a page lists blocks: objects tagged by a ["type"] that
    carry, under the key of that name, an object whose ["rich_text"], when
    present, is an array of text runs. *)

Definition properties_shape (v : PyVal) : bool :=
  match v with
  | PyDict props => forallb (fun kv => attribute_value kv.2) props
  | _ => false
  end.

Definition record_shape (r : PyVal) : bool :=
  match r with
  | PyDict d => opt_field d (u"properties") properties_shape
  | _ => false
  end.

Definition block_data_shape (v : PyVal) : bool :=
  match v with
  | PyDict d => opt_field d (u"rich_text") (array_of (obj_with (u"plain_text")))
  | _ => false
  end.

Definition block_shape (b : PyVal) : bool :=
  match b with
  | PyDict d =>
      match dict_lookup (u"type") d with
      | Some (PyStr t) => opt_field d t block_data_shape
      | Some _ => false
      | None => opt_field d [] block_data_shape
      end
  | _ => false
  end.

Definition listing_shape (element : PyVal -> bool) (body : PyVal) : bool :=
  match body with
  | PyDict d => opt_field d (u"results") (array_of element)
  | _ => false
  end.

(** Every body the store answers with has the shape of its request. *)
Definition store_conforms (w : World) : Prop :=
  ∀ h url data body,
    (notion_api w h (u"POST") url data = HttpOk body ->
     listing_shape record_shape body = true)
    ∧ (notion_api w h (u"GET") url data = HttpOk body ->
       listing_shape block_shape body = true).

(** ** Data of the closed examples

    The examples run under a runtime that renders no container and words no
    interpreter message; none of them reaches either. *)

Definition bare_runtime : PyRuntime :=
  {| container_repr := fun _ => []; error_text := fun _ _ => [] |}.

Definition checked_box : list (str * PyVal) :=
  [(u"id", PyStr (u"abc")); (u"type", PyStr (u"checkbox"));
   (u"checkbox", PyBool true)].

Definition null_number : list (str * PyVal) :=
  [(u"type", PyStr (u"number")); (u"number", PyNone)].

Definition date_range : PyVal :=
  PyDict [(u"type", PyStr (u"date"));
          (u"date", PyDict [(u"start", PyStr (u"2024-01-01"));
                            (u"end", PyStr (u"2024-01-31"))])].

Definition example_config : AppConfig :=
  {| notion := {| api_key := u"secret"; database_id := u"db1";
                  status_property := u"処理済み";
                  content_properties := [u"タイトル"; BODY] |};
     slack := {| webhook_url := u"https://hooks.example/T/B/X";
                 channel := None |} |}.

Definition rich (s : str) : PyVal := PyList [PyDict [(u"plain_text", PyStr s)]].

Definition title_prop (s : str) : PyVal :=
  PyDict [(u"type", PyStr (u"title")); (u"title", rich s)].

Definition text_prop (s : str) : PyVal :=
  PyDict [(u"type", PyStr (u"rich_text")); (u"rich_text", rich s)].

Definition record (id : str) (props : list (str * PyVal)) : PyVal :=
  PyDict [(u"id", PyStr id); (u"properties", PyDict props);
          (u"url", PyStr (u"https://notion.example/" ++ id))].

Definition three_records : PyVal :=
  PyDict [(u"results",
           PyList [record (u"p1") [(u"タイトル", title_prop (u"Plan"));
                                   (BODY, text_prop (u"first notes"))];
                   record (u"p2") [(u"タイトル", title_prop (u"bad day"));
                                   (BODY, text_prop (u"second notes"))];
                   record (u"p3") [(u"タイトル", title_prop (u"Log"));
                                   (BODY, text_prop (u"third notes"))]])].

(** The database holds three records; the model refuses every text that
    contains "bad"; the webhook acknowledges. *)
Definition batch_world : World :=
  {| notion_api := fun _ method _ _ =>
       if str_eqb method (u"POST") then HttpOk three_records
       else HttpOk (PyDict []);
     slack_webhook := fun _ _ _ => HttpOk (u"ok");
     gemini_model := fun _ text =>
       if is_substring (u"bad") text then GenRaises (u"quota exceeded")
       else GenResponse (u"summary") |}.

Definition item_of (id t body : str) : NotionItem :=
  {| page_id := PyStr id; title := PyStr t;
     content := [(u"タイトル", PyStr t); (BODY, PyStr body)];
     url := PyStr (u"https://notion.example/" ++ id) |}.

Definition batch_items : list NotionItem :=
  [item_of (u"p1") (u"Plan") (u"first notes");
   item_of (u"p2") (u"bad day") (u"second notes");
   item_of (u"p3") (u"Log") (u"third notes")].

(** The database cannot be reached. *)
Definition notion_down : World :=
  {| notion_api := fun _ _ _ _ => RequestException (u"timed out");
     slack_webhook := fun _ _ _ => HttpOk (u"ok");
     gemini_model := fun _ _ => GenResponse (u"summary") |}.

(** The webhook answers without its acknowledgment and the commit is
    refused; the model answers. *)
Definition soft_failures : World :=
  {| notion_api := fun _ _ _ _ => HTTPError (u"403 Forbidden");
     slack_webhook := fun _ _ _ => HttpOk (u"invalid_payload");
     gemini_model := fun _ _ => GenResponse (u"summary") |}.

Definition plan_item : NotionItem :=
  item_of (u"p1") (u"Plan") (u"first notes").

(** The webhook is down; the model answers. *)
Definition slack_down : World :=
  {| notion_api := fun _ _ _ _ => HttpOk (PyDict []);
     slack_webhook := fun _ _ _ => HTTPError (u"503 Server Error");
     gemini_model := fun _ _ => GenResponse (u"summary") |}.

(** Everything answers. *)
Definition all_fine : World :=
  {| notion_api := fun _ _ _ _ => HttpOk (PyDict []);
     slack_webhook := fun _ _ _ => HttpOk (u"ok");
     gemini_model := fun _ _ => GenResponse (u"summary") |}.

(** An item whose title ends in a space and whose only content field is
    blank. *)
Definition spaced_item : NotionItem :=
  {| page_id := PyStr (u"p9"); title := PyStr (u"Plan ");
     content := [(BODY, PyStr [])]; url := PyStr [] |}.

Definition sparse_record : PyVal :=
  PyDict [(u"results",
           PyList [record (u"p5") [(u"タイトル", title_prop (u"Plan"))]])].

(** The database holds one record without the body field, and the page has
    no blocks. *)
Definition sparse_world : World :=
  {| notion_api := fun _ method _ _ =>
       if str_eqb method (u"POST") then HttpOk sparse_record
       else HttpOk (PyDict [(u"results", PyList [])]);
     slack_webhook := fun _ _ _ => HttpOk (u"ok");
     gemini_model := fun _ _ => GenResponse (u"summary") |}.

Definition sparse_item : NotionItem :=
  {| page_id := PyStr (u"p5"); title := PyStr (u"Plan");
     content := [(u"タイトル", PyStr (u"Plan"))];
     url := PyStr (u"https://notion.example/p5") |}.

(** ** Vocabulary of the further properties *)

Section Requests.
Context {RT : PyRuntime}.
Variable config : AppConfig.

(** The request of [mark_as_processed] for the page [pid]. *)
Definition commit_url (pid : PyVal) : str :=
  BASE_URL ++ u"/pages/" ++ py_str pid.

Definition commit_data : PyVal :=
  PyDict [(u"properties",
           PyDict [(status_property (notion config),
                    PyDict [(u"checkbox", PyBool true)])])].

Definition commit_call (pid : PyVal) : Call :=
  NotionRequest (u"PATCH") (commit_url pid) (Some commit_data).

(** The request of [_get_page_content] for the page [pid]. *)
Definition blocks_url (pid : PyVal) : str :=
  BASE_URL ++ u"/blocks/" ++ py_str pid ++ u"/children?page_size=100".

Definition blocks_call (pid : PyVal) : Call :=
  NotionRequest (u"GET") (blocks_url pid) None.

(** The post of [send_message]. *)
Definition slack_call (text : str) (blocks : list PyVal) : Call :=
  SlackPost (webhook_url (slack config)) (payload_of config text blocks).


(** The post of [send_processed_result]. *)
Definition result_call (t : PyVal) (result : str) (link : PyVal) : Call :=
  slack_call (fallback_text t result) (result_blocks t result link).

End Requests.


Definition is_notion_request (c : Call) : bool :=
  match c with NotionRequest _ _ _ => true | _ => false end.

(** Text runs as the store sends them. *)
Definition text_runs (parts : list str) : PyVal :=
  PyList (map (fun s => PyDict [(u"plain_text", PyStr s)]) parts).

(** Options, people or relations as the store sends them: objects that
    carry a text under [key]. *)
Definition named (key : str) (names : list str) : PyVal :=
  PyList (map (fun s => PyDict [(key, PyStr s)]) names).

(** A paragraph block with one text run. *)
Definition paragraph (text : str) : PyVal :=
  PyDict [(u"type", PyStr (u"paragraph"));
          (u"paragraph", PyDict [(u"rich_text", text_runs [text])])].

(** The variables that [load_config] requires, in the order it reads
    them. *)
Definition REQUIRED : list str :=
  [u"NOTION_API_KEY"; u"NOTION_DATABASE_ID"; u"GEMINI_API_KEY";
   u"SLACK_WEBHOOK_URL"].

(** The variable is set to a text that is not empty. *)
Definition is_set (env : Env) (key : str) : bool :=
  match env key with
  | Some v => negb (is_empty v)
  | None => false
  end.

(** The message of the [ValueError] raised for the variable [key]. *)
Definition missing_message (key : str) : str :=
  u"環境変数 " ++ key ++ u" が設定されていません".

(** A name as it can stand in the list: not empty, without a comma, and
    without whitespace at either end. *)
Definition clean_name (p : str) : Prop :=
  p ≠ [] ∧ strip p = p ∧ 44%N ∉ p.

(** A call to the model. *)
Definition is_generate (c : Call) : bool :=
  match c with GenerateContent _ => true | _ => false end.

(** *** More data of the closed examples *)

(** A people attribute whose one user carries no name: the store sends
    [null] for it. *)
Definition nameless_person : PyVal :=
  PyDict [(u"id", PyStr (u"a1")); (u"type", PyStr (u"people"));
          (u"people", PyList [PyDict [(u"object", PyStr (u"user"));
                                      (u"id", PyStr (u"u1"));
                                      (u"name", PyNone)]])].

Definition null_select : PyVal :=
  PyDict [(u"id", PyStr (u"a2")); (u"type", PyStr (u"select"));
          (u"select", PyNone)].

Definition null_url : PyVal :=
  PyDict [(u"id", PyStr (u"a3")); (u"type", PyStr (u"url"));
          (u"url", PyNone)].

(** The configured content fields are the title and the people in charge. *)
Definition team_config : AppConfig :=
  {| notion := {| api_key := u"secret"; database_id := u"db1";
                  status_property := u"処理済み";
                  content_properties := [u"タイトル"; u"担当者"] |};
     slack := {| webhook_url := u"https://hooks.example/T/B/X";
                 channel := None |} |}.

Definition team_records : PyVal :=
  PyDict [(u"results",
           PyList [record (u"p1") [(u"タイトル", title_prop (u"Plan"));
                                   (u"担当者",
                                    PyDict [(u"type", PyStr (u"people"));
                                            (u"people",
                                             named (u"name") [u"Ann"])])];
                   record (u"p2") [(u"タイトル", title_prop (u"Log"));
                                   (u"担当者", nameless_person)]])].

(** The database holds two records, the second with the nameless user;
    every request is answered. *)
Definition team_world : World :=
  {| notion_api := fun _ method _ _ =>
       if str_eqb method (u"POST") then HttpOk team_records
       else HttpOk (PyDict [(u"results", PyList [])]);
     slack_webhook := fun _ _ _ => HttpOk (u"ok");
     gemini_model := fun _ _ => GenResponse (u"summary") |}.

(** An original content of 400 characters "Z" and a result of 5000
    characters "r". *)
Definition long_original : str := replicate 400 90%N.
Definition long_result : str := replicate 5000 114%N.

(** The payload of the success notification for the title "Plan", the
    result [long_result] and no link, written out from lines 108-159 of
    [slack_client.py]. *)
Definition plan_payload : PyVal :=
  PyDict
    [(u"text",
      PyStr (u"📝 Plan" ++ NL ++ NL ++ replicate 500 114%N ++ u"..."));
     (u"blocks",
      PyList
        [PyDict [(u"type", PyStr (u"header"));
                 (u"text", PyDict [(u"type", PyStr (u"plain_text"));
                                   (u"text", PyStr (u"📝 Plan"));
                                   (u"emoji", PyBool true)])];
         PyDict [(u"type", PyStr (u"divider"))];
         PyDict [(u"type", PyStr (u"section"));
                 (u"text", PyDict [(u"type", PyStr (u"mrkdwn"));
                                   (u"text", PyStr (replicate 3000 114%N))])];
         PyDict [(u"type", PyStr (u"context"));
                 (u"elements",
                  PyList [PyDict [(u"type", PyStr (u"mrkdwn"));
                                  (u"text",
                                   PyStr (u"🤖 _Gemini APIで自動処理されました_"))]])]])].

(** The database holds one record without the body field, and the page
    has two paragraphs. *)
Definition fallback_world : World :=
  {| notion_api := fun _ method _ _ =>
       if str_eqb method (u"POST") then HttpOk sparse_record
       else HttpOk (PyDict [(u"results",
                             PyList (map paragraph [u"one"; u"two"]))]);
     slack_webhook := fun _ _ _ => HttpOk (u"ok");
     gemini_model := fun _ _ => GenResponse (u"summary") |}.

Definition fallback_item : NotionItem :=
  {| page_id := PyStr (u"p5"); title := PyStr (u"Plan");
     content := [(u"タイトル", PyStr (u"Plan"));
                 (BODY, PyStr (u"one" ++ NL ++ u"two"))];
     url := PyStr (u"https://notion.example/p5") |}.


Definition plan_record : PyVal :=
  record (u"p1") [(u"タイトル", title_prop (u"Plan"));
                  (BODY, text_prop (u"first notes"))].

Definition bad_item : NotionItem :=
  item_of (u"p2") (u"bad day") (u"second notes").

(** An environment given by its bindings. *)
Definition env_of (bindings : list (str * str)) : Env := fun key =>
  match List.find (fun kv => str_eqb kv.1 key) bindings with
  | Some kv => Some kv.2
  | None => None
  end.

Definition example_env : Env :=
  env_of [(u"NOTION_API_KEY", u"secret"); (u"NOTION_DATABASE_ID", u"db1");
          (u"GEMINI_API_KEY", u"key");
          (u"SLACK_WEBHOOK_URL", u"https://hooks.example/T/B/X");
          (u"NOTION_CONTENT_PROPERTIES", u" 要約 , 本文");
          (u"GEMINI_SYSTEM_INSTRUCTION", u"Summarise\nbriefly")].

(** * Properties *)

Arguments u : simpl never.

(** Decide the comparisons of a known type tag with the literals. *)
Ltac eval_tags :=
  repeat match goal with
    | |- context [py_eq_str (PyStr ?a) ?b] =>
        let r := eval vm_compute in (py_eq_str (PyStr a) b) in
        change (py_eq_str (PyStr a) b) with r
    end;
  cbn iota.

Ltac eval_str_eqb :=
  repeat match goal with
    | |- context [str_eqb ?a ?b] =>
        let r := eval vm_compute in (str_eqb a b) in
        change (str_eqb a b) with r
    end;
  cbn iota.

(** ** Attribute extractor *)

Section ExtractorFacts.
Context {RT : PyRuntime}.

Lemma int_str_nonempty z : int_str z ≠ [].
Proof.
  unfold int_str, ascii_str, bytes_of_string.
  destruct (Z.to_int z) as [d|d]; simpl; [|discriminate].
  unfold NilZero.string_of_uint. destruct d; discriminate.
Qed.

(** C8, as the code has it: a boolean attribute is rendered by [str()], so
    [True] gives the text "True" and [False] gives "False", capitalised; a
    checkbox attribute without raw data gives "False". *)
Theorem extract_checkbox d :
  dict_lookup (u"type") d = Some (PyStr (u"checkbox")) ->
  (∀ b, dict_lookup (u"checkbox") d = Some (PyBool b) ->
        _extract_property_value (PyDict d)
        = Return (PyStr (if b then u"True" else u"False")))
  ∧ (dict_lookup (u"checkbox") d = None ->
     _extract_property_value (PyDict d) = Return (PyStr (u"False"))).
Proof.
  intros Hty. split; [intros b Hv|intros Hv];
    unfold _extract_property_value, py_get;
    rewrite Hty; simpl; eval_tags; rewrite Hv; simpl; [by destruct b|done].
Qed.

(** C10: a number attribute whose raw value is present and null is rendered
    as the text "None"; a number attribute without the raw field is rendered
    as the empty text; and for an attribute value of kind number the empty
    text comes out only when the raw field is absent. *)
Theorem extract_number_null d :
  dict_lookup (u"type") d = Some (PyStr (u"number")) ->
  (dict_lookup (u"number") d = Some PyNone ->
   _extract_property_value (PyDict d) = Return (PyStr (u"None")))
  ∧ (dict_lookup (u"number") d = None ->
     _extract_property_value (PyDict d) = Return (PyStr []))
  ∧ (attribute_value (PyDict d) = true ->
     _extract_property_value (PyDict d) = Return (PyStr []) ->
     dict_lookup (u"number") d = None).
Proof.
  intros Hty.
  assert (Hx : _extract_property_value (PyDict d)
               = Return (PyStr (py_str (default (PyStr [])
                                          (dict_lookup (u"number") d))))).
  { unfold _extract_property_value, py_get. rewrite Hty. simpl. by eval_tags. }
  rewrite Hx. split; [|split].
  - by intros ->.
  - by intros ->.
  - unfold attribute_value, kind_of. rewrite Hty. unfold raw_shape.
    eval_str_eqb. unfold opt_field.
    destruct (dict_lookup (u"number") d) as [v|]; [|done].
    simpl. intros Hv [= Hs]. exfalso.
    destruct v; try discriminate; simpl in *.
    + by apply (int_str_nonempty z).
    + rewrite Hs in Hv. discriminate.
Qed.

End ExtractorFacts.

Section ExtractorTotal.
Context {RT : PyRuntime}.

Lemma fields_are_strs key l :
  forallb (obj_with key) l = true ->
  ∃ parts, res_mapM (fun t => py_get t key (PyStr [])) l = Return parts
           ∧ ∃ ss, all_strs parts = Some ss.
Proof.
  induction l as [|t l IH]; simpl.
  - intros _. exists []. split; [done|]. by exists [].
  - intros [Ht Hl]%andb_prop. destruct (IH Hl) as (parts & -> & ss & Hss).
    destruct t; try discriminate. simpl in *. unfold opt_field in Ht.
    destruct (dict_lookup key d) as [v|]; simpl.
    + destruct v; try discriminate. eexists. split; [done|].
      simpl. rewrite Hss. by eexists.
    + eexists. split; [done|]. simpl. rewrite Hss. by eexists.
Qed.

Lemma join_field_total sep key v :
  array_of (obj_with key) v = true -> ∃ s, join_field sep key v = Return s.
Proof.
  destruct v; try discriminate. simpl. intros H.
  destruct (fields_are_strs _ _ H) as (parts & Hp & ss & Hss).
  unfold join_field. simpl. rewrite Hp. simpl. unfold py_join. rewrite Hss.
  by eexists.
Qed.

Lemma join_field_default sep key :
  join_field sep key (PyList []) = Return [].
Proof. reflexivity. Qed.

End ExtractorTotal.

Section ExtractorClaims.
Context {RT : PyRuntime}.

Lemma truthy_or_empty_str v :
  nullable is_str v = true ->
  ∃ s, (if py_truthy v then v else PyStr []) = PyStr s.
Proof.
  destruct v; try discriminate; simpl; intros _.
  - by eexists.
  - destruct (is_empty s); simpl; by eexists.
Qed.

Ltac kind_case H :=
  match goal with
  | |- context [str_eqb ?t ?lit] =>
      destruct (str_eqb t lit) eqn:H;
      [apply bool_decide_eq_true in H; subst t|]
  end.

Ltac supported :=
  let Hs := fresh "Hs" in intros Hs; exfalso; vm_compute in Hs; discriminate.

Ltac field v Hv :=
  match goal with
  | |- opt_field ?d ?k _ = true -> _ =>
      unfold opt_field; destruct (dict_lookup k d) as [v|];
      cbn [default id]; intros Hv
  end.

Ltac joined :=
  let v := fresh "v" in
  let Hv := fresh "Hv" in
  field v Hv;
  [ match type of Hv with
    | array_of (obj_with ?key) _ = true =>
        match goal with
        | |- context [join_field ?sep key v] =>
            let s := fresh "s" in
            destruct (join_field_total sep key v Hv) as [s ->];
            exists s; split; [done|supported]
        end
    end
  | exists []; split; [done|supported] ].

Ltac plain :=
  let v := fresh "v" in
  let Hv := fresh "Hv" in
  field v Hv;
  [ destruct (truthy_or_empty_str v Hv) as [s ->]; exists s
  | exists [] ];
  (split; [done|supported]).

Lemma extract_attribute_value prop :
  attribute_value prop = true ->
  ∃ s, _extract_property_value prop = Return (PyStr s)
       ∧ (supported_kind prop = false -> s = []).
Proof.
  destruct prop as [| | | | |?|d]; try discriminate.
  unfold attribute_value, supported_kind, kind_of, _extract_property_value, py_get.
  destruct (dict_lookup (u"type") d) as [ty|] eqn:Hty; simpl.
  2:{ intros _. eval_tags. by exists []. }
  destruct ty as [| | | |t| |]; try (intros _; by exists []).
  unfold raw_shape. simpl.
  kind_case H1. { joined. }
  kind_case H2. { joined. }
  kind_case H3. { field v Hv; eexists; (split; [done|supported]). }
  kind_case H4.
  { field v Hv; [|exists []; split; [done|supported]].
    destruct v as [| | | | | |o]; try discriminate.
    - exists []. split; [done|supported].
    - simpl in Hv. unfold opt_field in Hv. destruct o as [|kv o].
      + exists []. split; [done|supported].
      + cbn [py_truthy].
        destruct (dict_lookup (u"name") (kv :: o)) as [n|]; simpl.
        * destruct n; try discriminate. eexists. split; [done|supported].
        * eexists. split; [done|supported]. }
  kind_case H5. { joined. }
  kind_case H6.
  { field v Hv; [|exists []; split; [done|supported]].
    destruct v as [| | | | | |o]; try discriminate.
    - exists []. split; [done|supported].
    - simpl in Hv. apply andb_prop in Hv as [Hs He]. unfold opt_field in *.
      destruct o as [|kv o]; [exists []; split; [done|supported]|].
      cbn [py_truthy].
      destruct (dict_lookup (u"end") (kv :: o)) as [e|],
               (dict_lookup (u"start") (kv :: o)) as [st|]; simpl;
        try (destruct st; try discriminate);
        try (destruct (py_truthy e));
        eexists; (split; [done|supported]). }
  kind_case H7. { field v Hv; eexists; (split; [done|supported]). }
  kind_case H8. { plain. }
  kind_case H9. { plain. }
  kind_case H10. { plain. }
  kind_case H11. { joined. }
  kind_case H12. { joined. }
  intros _. by exists [].
Qed.

(** X19: where the extractor is total.  On a tagged object whose raw data
    has the shape of its kind (text runs and named objects in arrays, a
    number or null, a select or a date object or null, a boolean, a text
    or null for url, email and phone number) it returns a string and does
    not raise; for a tag outside the supported set, and for an object
    without a tag, that string is empty whatever the raw data. *)
Theorem extract_total prop :
  attribute_value prop = true ->
  ∃ s, _extract_property_value prop = Return (PyStr s)
       ∧ (supported_kind prop = false -> s = []).
Proof. apply extract_attribute_value. Qed.

(** Outside the shapes the extractor can raise: a title whose raw data is
    null cannot be iterated. *)
Example extract_raises_on_null_title :
  ∃ msg, _extract_property_value
           (PyDict [(u"type", PyStr (u"title")); (u"title", PyNone)])
         = Raise (TypeError msg).
Proof. by eexists. Qed.

(** C7 at the failing input: a people attribute whose one user carries a
    null name, a value of a supported kind.  The extractor raises
    [TypeError] when it joins the names, so it returns no string; the
    branches for a select and for a url meet the same null and return the
    empty text. *)
Theorem extract_null_name_raises :
  supported_kind nameless_person = true
  ∧ _extract_property_value nameless_person
    = Raise (TypeError (error_text OpJoin (PyList [PyNone])))
  ∧ (∀ s, _extract_property_value nameless_person ≠ Return (PyStr s))
  ∧ _extract_property_value null_select = Return (PyStr [])
  ∧ _extract_property_value null_url = Return (PyStr []).
Proof.
  split; [by vm_compute|]. split; [reflexivity|].
  split; [intros s; discriminate|]. split; reflexivity.
Qed.

End ExtractorClaims.

(** ** Blank text *)

Lemma lstrip_nil s : lstrip s = [] ↔ forallb py_isspace s = true.
Proof.
  induction s as [|c s IH]; simpl; [done|].
  destruct (py_isspace c); simpl; [done|]. split; discriminate.
Qed.

Lemma lstrip_idem s : lstrip (lstrip s) = lstrip s.
Proof.
  induction s as [|c s IH]; simpl; [done|].
  destruct (py_isspace c) eqn:Hc; [done|]. simpl. by rewrite Hc.
Qed.

Lemma forallb_rev {A} (f : A -> bool) l : forallb f (rev l) = forallb f l.
Proof.
  induction l as [|a l IH]; simpl; [done|].
  rewrite forallb_app, IH. simpl. rewrite andb_true_r. apply andb_comm.
Qed.

(** [s.strip()] is empty exactly when [s] is made of whitespace only. *)
Lemma strip_nil s : strip s = [] ↔ forallb py_isspace s = true.
Proof.
  unfold strip. rewrite <- (lstrip_nil s).
  split.
  - intros H. apply (f_equal (@rev _)) in H. rewrite rev_involutive in H.
    simpl in H. apply lstrip_nil in H. rewrite forallb_rev in H.
    apply lstrip_nil in H. by rewrite lstrip_idem in H.
  - by intros ->.
Qed.

(** ** Content transformer *)

(** C4, as the code has it: on a blank text (empty or whitespace only)
    [process] returns the empty string normally and the model is not
    called. *)
Theorem process_blank w text h :
  forallb py_isspace text = true ->
  process w text h = (Return [], h).
Proof.
  intros H%strip_nil. unfold process. rewrite H. by rewrite orb_true_r.
Qed.

(** On a text that is not blank the model is called once, and [process]
    raises [GeminiClientError] unless the model answers with a text. *)
Lemma process_not_blank w text h :
  forallb py_isspace text = false ->
  process w text h
  = (match gemini_model w h text with
     | GenResponse [] => Raise (GeminiClientError NO_VALID_RESPONSE)
     | GenResponse result => Return result
     | GenRaises e =>
         Raise (GeminiClientError (u"Gemini API呼び出しに失敗: " ++ e))
     end, h ++ [GenerateContent text]).
Proof.
  intros H. unfold process.
  assert (Hs : strip text ≠ []).
  { intros Hs%strip_nil. congruence. }
  destruct text as [|c text]; [discriminate|].
  destruct (strip (c :: text)); [done|]. simpl.
  destruct (gemini_model w h (c :: text)) as [e|[|c' r]]; done.
Qed.

(** ** Notifier *)

Section NotifierFacts.
Context {RT : PyRuntime}.

Lemma truncated_original_short s :
  length s <= 300 -> truncated_original s = s.
Proof.
  intros H. unfold truncated_original.
  destruct (300 <? length s) eqn:E; [|done].
  apply Nat.ltb_lt in E. lia.
Qed.

Lemma truncated_original_long s :
  300 < length s ->
  truncated_original s = take 300 s ++ ELLIPSIS ∧ length (take 300 s) = 300.
Proof.
  intros H. unfold truncated_original.
  apply Nat.ltb_lt in H as E. rewrite E. split; [done|].
  rewrite length_take. lia.
Qed.

(** The primary block is the third of the list and holds the first 3000
    characters of the result. *)
Lemma result_blocks_section t result link :
  result_blocks t result link !! 2
  = Some (PyDict [(u"type", PyStr (u"section"));
                  (u"text", mrkdwn (take 3000 result))]).
Proof. reflexivity. Qed.

Lemma send_message_log w config text blocks h :
  (send_message w config text blocks h).2
  = h ++ [SlackPost (webhook_url (slack config)) (payload_of config text blocks)].
Proof.
  unfold send_message, payload_of.
  by destruct (slack_webhook _ _ _ _).
Qed.

End NotifierFacts.

(** ** Orchestrator *)

Lemma bind_run {A B} (m : M A) (f : A -> M B) h :
  (m ≫= f) h = match m h with
               | (Return a, h') => f a h'
               | (Raise e, h') => (Raise e, h')
               end.
Proof. reflexivity. Qed.

Section PipelineFacts.
Context {RT : PyRuntime}.
Variable w : World.
Variable config : AppConfig.

(** [send_message] either returns the acknowledgment or raises
    [SlackClientError]. *)
Lemma send_message_cases text blocks h :
  (∃ b, (send_message w config text blocks h).1 = Return b)
  ∨ (∃ msg, (send_message w config text blocks h).1
            = Raise (SlackClientError msg)).
Proof.
  unfold send_message. destruct (slack_webhook _ _ _ _); simpl; eauto.
Qed.

(** [_make_request] either returns the body or raises
    [NotionClientError]. *)
Lemma _make_request_cases method endpoint data h :
  (∃ body, (_make_request w method endpoint data h).1 = Return body)
  ∨ (∃ msg, (_make_request w method endpoint data h).1
            = Raise (NotionClientError msg)).
Proof.
  unfold _make_request. destruct (notion_api _ _ _ _ _); simpl; eauto.
Qed.

(** The committer never raises. *)
Lemma mark_as_processed_returns pid h :
  ∃ b, (mark_as_processed w config pid h).1 = Return b.
Proof.
  unfold mark_as_processed, catch. rewrite bind_run.
  destruct (_make_request_cases (u"PATCH") (u"/pages/" ++ py_str pid)
    (Some (PyDict [(u"properties",
          PyDict [(status_property (notion config),
                   PyDict [(u"checkbox", PyBool true)])])])) h)
    as [[body Hb]|[msg Hb]];
  destruct (_make_request _ _ _ _ _) as [r h']; simpl in Hb; subst r;
  simpl; eauto.
Qed.

(** The transformer either returns a text or raises
    [GeminiClientError]. *)
Lemma process_cases text h :
  (∃ s, (process w text h).1 = Return s)
  ∨ (∃ msg, (process w text h).1 = Raise (GeminiClientError msg)).
Proof.
  unfold process.
  destruct (_ || _); [simpl; eauto|].
  destruct (gemini_model _ _ _) as [e|r]; [simpl; eauto|].
  destruct (is_empty r); simpl; eauto.
Qed.

(** The composed input starts with the mark of the heading, so it is never
    blank and a text returned for it is never empty. *)
Lemma input_not_blank it : forallb py_isspace (_build_gemini_input it) = false.
Proof.
  unfold _build_gemini_input, heading.
  by destruct (map _ (filled it)).
Qed.

Lemma process_input_result it h result h1 :
  process w (_build_gemini_input it) h = (Return result, h1) ->
  is_empty result = false.
Proof.
  rewrite (process_not_blank w _ h (input_not_blank it)).
  destruct (gemini_model w h _) as [e|[|c r]]; [discriminate..|].
  by intros [= <- _].
Qed.

(** What [process_single_item] does, step by step. *)
Lemma process_single_item_unfold it h :
  process_single_item w config it h =
  if skipped it then (Return (failure it EMPTY_CONTENT), h)
  else
    match process w (_build_gemini_input it) h with
    | (Raise e, h1) => (Return (failure it (exc_str e)), h1)
    | (Return result, h1) =>
        if is_empty result
        then (Return (failure it NO_GEMINI_RESULT), h1)
        else
          match send_processed_result w config (title it)
                  (original_content it) result (url it) h1 with
          | (Raise e, h2) =>
              (Return (failure it (UNEXPECTED ++ exc_str e)), h2)
          | (Return _, h2) =>
              (Return {| item := it; success := true;
                         gemini_result := result; error_message := [] |},
               (mark_as_processed w config (page_id it) h2).2)
          end
    end.
Proof.
  unfold process_single_item, catch.
  destruct (skipped it); [reflexivity|].
  rewrite bind_run.
  destruct (process_cases (_build_gemini_input it) h) as [[s Hs]|[msg Hs]];
    destruct (process w (_build_gemini_input it) h) as [r h1];
    simpl in Hs; subst r; [|reflexivity].
  destruct (is_empty s); [reflexivity|].
  rewrite bind_run. unfold send_processed_result.
  destruct (send_message_cases
              (fallback_text (title it) s)
              (result_blocks (title it) s (url it)) h1) as [[b Hb]|[msg Hb]];
    destruct (send_message w config _ _ h1) as [r h2];
    simpl in Hb; subst r; [|reflexivity].
  rewrite bind_run.
  destruct (mark_as_processed_returns (page_id it) h2) as [c Hc].
  destruct (mark_as_processed w config (page_id it) h2) as [r h3].
  simpl in Hc. subst r. reflexivity.
Qed.

(** Every exception is caught at the item boundary. *)
Lemma process_single_item_returns it h :
  ∃ r, (process_single_item w config it h).1 = Return r ∧ item r = it.
Proof.
  rewrite process_single_item_unfold.
  destruct (skipped it); [by eexists|].
  destruct (process w _ h) as [[s|e] h1]; [|by eexists].
  destruct (is_empty s); [by eexists|].
  destruct (send_processed_result _ _ _ _ _ _ h1) as [[b|e] h2]; by eexists.
Qed.

Lemma process_single_item_success it h r :
  (process_single_item w config it h).1 = Return r ->
  success r = item_succeeds w config it h.
Proof.
  rewrite process_single_item_unfold. unfold item_succeeds.
  destruct (skipped it); [by intros [= <-]|].
  destruct (process w _ h) as [[s|e] h1]; [|by intros [= <-]].
  destruct (is_empty s); [by intros [= <-]|].
  destruct (send_processed_result _ _ _ _ _ _ h1) as [[b|e] h2];
    by intros [= <-].
Qed.

Lemma process_single_item_transform_fails it h r e :
  (process_single_item w config it h).1 = Return r ->
  (process w (_build_gemini_input it) h).1 = Raise e ->
  success r = false.
Proof.
  rewrite process_single_item_unfold.
  destruct (skipped it); [by intros [= <-]|].
  destruct (process w _ h) as [[s|e'] h1]; [discriminate|by intros [= <-]].
Qed.

(** The error notification after a failed item never escapes the loop. *)
Lemma notify_failure_returns r h :
  (notify_failure w config r h).1 = Return tt.
Proof.
  unfold notify_failure, send_error_notification, catch.
  destruct (_ && _); [|done]. rewrite bind_run.
  match goal with
  | |- context [send_message w config ?t ?b h] =>
      destruct (send_message_cases t b h) as [[c Hc]|[msg Hc]];
      destruct (send_message w config t b h) as [x h']
  end; simpl in Hc; by subst x.
Qed.

Lemma run_loop_cons it rest h :
  run_loop w config (it :: rest) h =
  match process_single_item w config it h with
  | (Return r, _) =>
      match run_loop w config rest (log_after_item w config it h) with
      | (Return rs, h') => (Return (r :: rs), h')
      | (Raise e, h') => (Raise e, h')
      end
  | (Raise e, h') => (Raise e, h')
  end.
Proof.
  unfold log_after_item. cbn [run_loop]. rewrite !bind_run.
  destruct (process_single_item w config it h) as [[r|e] h1]; [|done].
  rewrite bind_run.
  pose proof (notify_failure_returns r h1) as Hn.
  destruct (notify_failure w config r h1) as [x h2]. simpl in Hn. subst x.
  simpl. rewrite bind_run.
  by destruct (run_loop w config rest h2) as [[rs|e] h3].
Qed.

(** The loop of [run] gives one result per item, in order; the result at
    position [k] is what [process_single_item] returns for the item at [k]
    in the log the loop has reached there. *)
Lemma run_loop_spec items h :
  ∃ rs, (run_loop w config items h).1 = Return rs
        ∧ map item rs = items
        ∧ ∀ k it, items !! k = Some it ->
            ∃ r, rs !! k = Some r
                 ∧ (process_single_item w config it (log_before w config items h k)).1
                   = Return r.
Proof.
  revert h. induction items as [|it rest IH]; intros h.
  - exists []. by repeat split.
  - rewrite run_loop_cons.
    destruct (process_single_item_returns it h) as (r & Hr & Hit).
    destruct (process_single_item w config it h) as [x h1] eqn:Hp.
    simpl in Hr. subst x.
    destruct (IH (log_after_item w config it h)) as (rs & Hrs & Hmap & Hk).
    destruct (run_loop w config rest _) as [y h2]. simpl in Hrs. subst y.
    exists (r :: rs). split; [done|]. split; [simpl; congruence|].
    intros [|k] it' Hlk.
    + simpl in Hlk. injection Hlk as <-. exists r. split; [done|].
      unfold log_before. simpl. by rewrite Hp.
    + simpl in Hlk. destruct (Hk k it' Hlk) as (r' & Hr' & Hp').
      exists r'. by split.
Qed.

Lemma get_unprocessed_items_query_fails h :
  query_fails w config h = true ->
  ∃ msg, get_unprocessed_items w config h
         = (Raise (NotionClientError msg), h ++ [query_call config]).
Proof.
  unfold query_fails, get_unprocessed_items, query_call, query_url.
  rewrite bind_run. unfold _make_request.
  destruct (notion_api _ _ _ _ _); [by eexists..|discriminate].
Qed.

Lemma run_unfold dry_run h :
  run w config dry_run h =
  match get_unprocessed_items w config h with
  | (Return items, h1) =>
      if is_empty items then (Return [], h1)
      else if dry_run then (Return [], h1)
      else run_loop w config items h1
  | (Raise (NotionClientError _), h1) => (Return [], h1)
  | (Raise e, h1) => (Raise e, h1)
  end.
Proof.
  unfold run, catch. rewrite !bind_run.
  destruct (get_unprocessed_items w config h) as [[items|e] h1]; simpl.
  - by destruct (is_empty items), dry_run.
  - by destruct e.
Qed.

(** C1: partial-failure isolation.  Whatever the services do, a run over
    the fetched items returns exactly one result per item, in fetch order.
    The result at position [k] is the one [process_single_item] returns for
    the item at [k] in the log the loop has reached there: it is a failure
    when the transform call for that item raises, it is a success exactly
    when the item's own processing succeeds, and this holds at every
    position, also after a failed one. *)
Theorem run_isolates_failures h0 items h1 :
  get_unprocessed_items w config h0 = (Return items, h1) ->
  ∃ rs h2,
    run w config false h0 = (Return rs, h2)
    ∧ length rs = length items
    ∧ map item rs = items
    ∧ ∀ k it, items !! k = Some it ->
        let hk := log_before w config items h1 k in
        ∃ r, rs !! k = Some r
             ∧ (process_single_item w config it hk).1 = Return r
             ∧ (∀ e, (process w (_build_gemini_input it) hk).1 = Raise e ->
                     success r = false)
             ∧ success r = item_succeeds w config it hk.
Proof.
  intros Hfetch. rewrite run_unfold, Hfetch.
  destruct (run_loop_spec items h1) as (rs & Hrs & Hmap & Hk).
  destruct (run_loop w config items h1) as [x h2] eqn:Hloop.
  simpl in Hrs. subst x.
  exists rs, (if is_empty items then h1 else h2).
  assert (Hlen : length rs = length items).
  { by rewrite <- Hmap, length_map. }
  split; [|split; [done|split; [done|]]].
  - destruct items; [|done]. destruct rs; [done|discriminate].
  - intros k it Hit hk. destruct (Hk k it Hit) as (r & Hr & Hp).
    exists r. split; [done|]. split; [done|]. split.
    + intros e. by apply process_single_item_transform_fails.
    + by apply process_single_item_success.
Qed.

(** C2, as the code has it.  Once the transformer has returned a text, a
    success notification that returns (acknowledged or not) followed by a
    commit that returns (done or not) gives a success; a success
    notification that raises gives a failure carrying the text of the
    exception, and the commit is not attempted.  In every case the item
    yields a result, so the batch goes on. *)
Theorem notify_commit_best_effort it h result h1 :
  skipped it = false ->
  process w (_build_gemini_input it) h = (Return result, h1) ->
  let sent := send_processed_result w config (title it) (original_content it)
                result (url it) h1 in
  (∀ acknowledged h2 committed h3,
      sent = (Return acknowledged, h2) ->
      mark_as_processed w config (page_id it) h2 = (Return committed, h3) ->
      process_single_item w config it h
      = (Return {| item := it; success := true; gemini_result := result;
                   error_message := [] |}, h3))
  ∧ (∀ e h2,
       sent = (Raise e, h2) ->
       process_single_item w config it h
       = (Return (failure it (UNEXPECTED ++ exc_str e)), h2))
  ∧ (∃ r, (process_single_item w config it h).1 = Return r)
  ∧ (∀ rest, ∃ rs, (run_loop w config (it :: rest) h).1 = Return rs
                   ∧ length rs = S (length rest)).
Proof.
  intros Hskip Hp sent. subst sent.
  pose proof (process_input_result it h result h1 Hp) as Hne.
  rewrite process_single_item_unfold, Hskip, Hp, Hne.
  split; [|split; [|split]].
  - intros b h2 c h3 -> Hc. by rewrite Hc.
  - by intros e h2 ->.
  - destruct (send_processed_result _ _ _ _ _ _ h1) as [[b|e] h2]; by eexists.
  - intros rest. destruct (run_loop_spec (it :: rest) h) as (rs & Hrs & Hmap & _).
    exists rs. split; [done|].
    apply (f_equal length) in Hmap. by rewrite length_map in Hmap.
Qed.

End PipelineFacts.

Section NotificationClaims.
Context {RT : PyRuntime}.
Variable w : World.
Variable config : AppConfig.

(** The notification does not depend on the original content: the
    shortened text is computed and left out of the payload. *)
Lemma send_processed_result_ignores_original t original original' result link h :
  send_processed_result w config t original result link h
  = send_processed_result w config t original' result link h.
Proof. reflexivity. Qed.

(** C5 at the failing input: the title "Plan", an original content of 400
    characters "Z", a result of 5000 characters "r" and no link.  The
    shortened original, 300 characters and the marker, is computed; the one
    payload posted is the one written out in [plan_payload], and no text
    of it holds a single character of the original: the notification
    displays no original text at all.  The primary block holds 3000
    characters of the result and the fallback text 500 and the marker. *)
Theorem success_notification_omits_original h :
  truncated_original long_original = replicate 300 90%N ++ u"..."
  ∧ (send_processed_result w example_config (PyStr (u"Plan")) long_original
       long_result (PyStr []) h).2
    = h ++ [SlackPost (u"https://hooks.example/T/B/X") plan_payload]
  ∧ forallb (fun s => negb (existsb (N.eqb 90) s)) (py_strings plan_payload)
    = true.
Proof.
  split; [vm_compute; reflexivity|]. split; [|vm_compute; reflexivity].
  unfold send_processed_result. rewrite send_message_log.
  vm_compute. reflexivity.
Qed.

End NotificationClaims.

Section SkipClaims.
Context {RT : PyRuntime}.
Variable w : World.
Variable config : AppConfig.

Lemma process_single_item_skips it h :
  skipped it = true ->
  process_single_item w config it h = (Return (failure it EMPTY_CONTENT), h).
Proof. intros H. by rewrite process_single_item_unfold, H. Qed.

Lemma lstrip_keep c s : py_isspace c = false -> lstrip (c :: s) = c :: s.
Proof. intros H. simpl. by rewrite H. Qed.

(** A text that neither starts nor ends with whitespace is left alone. *)
Lemma strip_keep a s b :
  py_isspace a = false -> py_isspace b = false ->
  strip (a :: s ++ [b]) = a :: s ++ [b].
Proof.
  intros Ha Hb. unfold strip. rewrite (lstrip_keep a) by done.
  replace (rev (a :: s ++ [b])) with (b :: rev (a :: s)).
  - rewrite (lstrip_keep b) by done.
    change (b :: rev (a :: s)) with (rev [b] ++ rev (a :: s)).
    by rewrite <- rev_app_distr, rev_involutive.
  - change (a :: s ++ [b]) with ((a :: s) ++ [b]). by rewrite rev_app_distr.
Qed.

(** A heading whose title ends in a character that is not whitespace is
    left alone by [strip]. *)
Lemma strip_heading it t c :
  py_str (title it) = t ++ [c] -> py_isspace c = false ->
  strip (heading it) = heading it.
Proof.
  intros Ht Hc. unfold heading. rewrite Ht.
  change (u"# " ++ t ++ [c]) with (35%N :: (32%N :: t) ++ [c]).
  by apply strip_keep.
Qed.

(** The short-circuit as far as the code has it: when every content field
    is blank and the title ends in a character that is not whitespace, the
    item fails with the empty-content message and no request is made. *)
Lemma empty_content_short_circuit it h t c :
  Forall (fun kv => py_truthy kv.2 = false) (content it) ->
  py_str (title it) = t ++ [c] -> py_isspace c = false ->
  process_single_item w config it h = (Return (failure it EMPTY_CONTENT), h).
Proof.
  intros Hblank Ht Hc. apply process_single_item_skips.
  unfold skipped, _build_gemini_input.
  assert (Hf : filled it = []).
  { unfold filled. induction (content it) as [|kv l IH]; [done|].
    inversion Hblank as [|?? Hkv Hl]; subst. simpl.
    rewrite Hkv. by apply IH. }
  rewrite Hf. simpl. rewrite (strip_heading it t c Ht Hc).
  unfold str_eqb. rewrite bool_decide_eq_true_2 by done.
  apply orb_true_r.
Qed.

End SkipClaims.

(** ** Item source *)

Lemma str_eqb_eq a b : str_eqb a b = true ↔ a = b.
Proof. unfold str_eqb. apply bool_decide_eq_true. Qed.

Lemma dict_lookup_key {k d} : is_Some (dict_lookup k d) ↔ k ∈ dict_keys d.
Proof.
  induction d as [|[k' v] d IH]; simpl.
  - split; [by intros [? ?]|by intros ?%elem_of_nil].
  - rewrite elem_of_cons. destruct (str_eqb k' k) eqn:E.
    + apply str_eqb_eq in E. subst. split; [by left|by eexists].
    + rewrite IH. split; [by right|]. intros [->|?]; [|done].
      unfold str_eqb in E. by rewrite bool_decide_eq_true_2 in E.
Qed.

Lemma dict_set_keys {V} k (v : V) d k' :
  k' ∈ dict_keys (dict_set k v d) ↔ k' = k ∨ k' ∈ dict_keys d.
Proof.
  induction d as [|[k0 v0] d IH]; simpl.
  - rewrite list_elem_of_singleton, elem_of_nil. tauto.
  - destruct (str_eqb k0 k) eqn:E; simpl; rewrite !elem_of_cons.
    + apply str_eqb_eq in E. subst. tauto.
    + rewrite IH. tauto.
Qed.

Lemma dict_lookup_set k v d : dict_lookup k (dict_set k v d) = Some v.
Proof.
  induction d as [|[k0 v0] d IH]; simpl.
  - unfold str_eqb. by rewrite bool_decide_eq_true_2.
  - destruct (str_eqb k0 k) eqn:E; simpl; by rewrite E.
Qed.

Section ItemSource.
Context {RT : PyRuntime}.
Variable w : World.
Variable config : AppConfig.

Lemma collect_content_keys props names acc c :
  collect_content props names acc = Return c ->
  ∀ k, k ∈ dict_keys c
       ↔ k ∈ dict_keys acc ∨ (k ∈ names ∧ k ∈ dict_keys props).
Proof.
  revert acc. induction names as [|n names IH]; simpl; intros acc Hc k.
  - injection Hc as <-. rewrite elem_of_nil. tauto.
  - rewrite elem_of_cons.
    destruct (dict_lookup n props) as [prop|] eqn:Hn.
    + destruct (_extract_property_value prop) as [value|e]; [|discriminate].
      simpl in Hc. rewrite (IH _ Hc), dict_set_keys.
      assert (n ∈ dict_keys props) by (apply dict_lookup_key; by eexists).
      split; [intros [[->|?]|[? ?]]|intros [?|[[->|?] ?]]]; tauto.
    + rewrite (IH _ Hc).
      assert (n ∉ dict_keys props).
      { intros [? ?]%dict_lookup_key. congruence. }
      split; [intros [?|[? ?]]|intros [?|[[->|?] ?]]]; tauto.
Qed.

(** The body fallback never raises a client error and leaves a text. *)
Lemma lift_run {A} (r : Res A) h : lift r h = (r, h).
Proof. reflexivity. Qed.

(** What a returned item is made of. *)
Lemma item_of_result_inv result h it h' :
  item_of_result w config result h = (Return it, h') ->
  ∃ pid props link t c,
    py_get result (u"id") (PyStr []) = Return pid
    ∧ py_get result (u"properties") (PyDict []) = Return (PyDict props)
    ∧ py_get result (u"url") (PyStr []) = Return link
    ∧ find_title props = Return t
    ∧ collect_content props (content_properties (notion config)) [] = Return c
    ∧ page_id it = pid ∧ url it = link
    ∧ title it = (if py_truthy t then t else PyStr UNTITLED)
    ∧ (if bool_decide (BODY ∈ content_properties (notion config))
          && negb (py_truthy (default PyNone (dict_lookup BODY c)))
       then ∃ text, _get_page_content w pid h = (Return text, h')
                    ∧ content it = (if is_empty text then c
                                    else dict_set BODY (PyStr text) c)
       else h' = h ∧ content it = c).
Proof.
  intros Hitem. unfold item_of_result in Hitem.
  rewrite bind_run, lift_run in Hitem.
  destruct (py_get result (u"id") (PyStr [])) as [pid|]; [|discriminate].
  rewrite bind_run, lift_run in Hitem.
  destruct (py_get result (u"properties") (PyDict [])) as [properties|];
    [|discriminate].
  rewrite bind_run, lift_run in Hitem.
  destruct (py_get result (u"url") (PyStr [])) as [link|]; [|discriminate].
  rewrite bind_run, lift_run in Hitem.
  destruct properties as [| | | | | |props]; try discriminate.
  simpl py_items in Hitem. cbv iota in Hitem.
  rewrite bind_run, lift_run in Hitem.
  destruct (find_title props) as [t|] eqn:Ht; [|discriminate].
  rewrite bind_run, lift_run in Hitem.
  destruct (collect_content props _ []) as [c|] eqn:Hc; [|discriminate].
  exists pid, props, link, t, c. rewrite bind_run in Hitem.
  destruct (bool_decide (BODY ∈ content_properties (notion config))
            && negb (py_truthy (default PyNone (dict_lookup BODY c)))).
  - rewrite bind_run in Hitem.
    destruct (_get_page_content w pid h) as [[text|e] h2]; [|discriminate].
    simpl in Hitem. injection Hitem as <- <-.
    do 8 (split; [done|]). by exists text.
  - simpl in Hitem. injection Hitem as <- <-. by do 8 (split; [done|]).
Qed.

Lemma collect_content_keys_nil props names c :
  collect_content props names [] = Return c ->
  ∀ k, k ∈ dict_keys c ↔ k ∈ names ∧ k ∈ dict_keys props.
Proof.
  intros Hc k. rewrite (collect_content_keys _ _ _ _ Hc k), elem_of_nil. tauto.
Qed.

Lemma item_of_result_content result h it h' :
  item_of_result w config result h = (Return it, h') ->
  ∃ props, py_get result (u"properties") (PyDict []) = Return (PyDict props)
           ∧ content_from_record w config props it h h'.
Proof.
  intros (pid & props & link & t & c & _ & Hprops & _ & _ & Hc & Hpid & _ & _
          & Hbody)%item_of_result_inv.
  exists props. split; [done|]. unfold content_from_record.
  pose proof (collect_content_keys_nil _ _ _ Hc) as Hk.
  destruct (bool_decide (BODY ∈ content_properties (notion config))
            && negb (py_truthy (default PyNone (dict_lookup BODY c))))
    eqn:Hcond.
  - destruct Hbody as (text & Hpage & Hcontent).
    apply andb_prop in Hcond as [Hconf%bool_decide_eq_true _].
    assert (Hkeys : ∀ k, k ∈ dict_keys (content it)
                         ↔ (text ≠ [] ∧ k = BODY) ∨ k ∈ dict_keys c).
    { intros k. rewrite Hcontent. destruct text as [|ch text]; simpl.
      - split; [by right|]. by intros [[? _]|?].
      - rewrite dict_set_keys.
        split; [intros [?|?]; [by left|by right]|intros [[_ ?]|?]; tauto]. }
    repeat split.
    + intros k [[_ ->]|Hin%Hk]%Hkeys; tauto.
    + intros k Hin Hrec. apply Hkeys. right. by apply Hk.
    + intros k Hin Hrec Hne [[_ ?]|Hc']%Hkeys; [done|]. apply Hk in Hc'. tauto.
    + intros _ Hrec. exists text. rewrite Hpid. split; [done|]. split.
      * intros Hne. rewrite Hcontent. destruct text; [done|]. simpl.
        apply dict_lookup_set.
      * intros -> [[? _]|Hc']%Hkeys; [done|]. apply Hk in Hc'. tauto.
  - destruct Hbody as [-> Hcontent]. rewrite Hcontent. repeat split.
    + by intros k [? _]%Hk.
    + intros k Hin Hrec. by apply Hk.
    + intros k _ Hrec _ [_ ?]%Hk. done.
    + intros Hconf Hrec. exfalso.
      assert (Hnone : dict_lookup BODY c = None).
      { destruct (dict_lookup BODY c) eqn:E; [|done].
        assert (BODY ∈ dict_keys c) as [_ ?]%Hk; [|done].
        apply dict_lookup_key. by eexists. }
      rewrite Hnone in Hcond. simpl in Hcond.
      by rewrite bool_decide_eq_true_2 in Hcond.
Qed.

Lemma mapM_inv {A B} (f : A -> M B) l h bs h' :
  mapM f l h = (Return bs, h') ->
  Forall2 (fun a b => ∃ ha ha', f a ha = (Return b, ha')) l bs.
Proof.
  revert h bs. induction l as [|a l IH]; intros h bs; simpl.
  - unfold mret, M_ret. intros [= <- _]. constructor.
  - rewrite bind_run. destruct (f a h) as [[b|e] h1] eqn:Hf; [|discriminate].
    rewrite bind_run.
    destruct (mapM f l h1) as [[bs'|e] h2] eqn:Hm; [|discriminate].
    unfold mret, M_ret. intros [= <- <-]. constructor; [by exists h, h1|]. by eapply IH.
Qed.

(** What a completed loop has done at each position: the element there
    was turned into the result there, in the log the loop had reached. *)
Lemma mapM_lookup {A B} (f : A -> M B) l h bs h' :
  mapM f l h = (Return bs, h') ->
  length bs = length l
  ∧ ∀ k a, l !! k = Some a ->
      ∃ b, bs !! k = Some b
           ∧ f a (foldl (fun h0 x => (f x h0).2) h (take k l))
             = (Return b, foldl (fun h0 x => (f x h0).2) h (take (S k) l)).
Proof.
  revert h bs. induction l as [|x l IH]; intros h bs; simpl.
  - unfold mret, M_ret. intros [= <- _]. split; [done|]. by intros k a.
  - rewrite bind_run. destruct (f x h) as [[b|e] h1] eqn:Hf; [|discriminate].
    rewrite bind_run.
    destruct (mapM f l h1) as [[bs'|e] h2] eqn:Hm; [|discriminate].
    unfold mret, M_ret. intros [= <- <-].
    destruct (IH h1 bs' Hm) as [Hlen Hat]. split; [simpl; by rewrite Hlen|].
    intros [|k] a Ha; simpl in *.
    + injection Ha as <-. exists b. by rewrite Hf.
    + rewrite Hf. simpl. by apply Hat.
Qed.

(** C9, as the code has it.  The items of a fetch stand, in order, for the
    records of the query.  Every key of an item's content is a configured
    content field; a configured field that the record has is a key; a
    configured field that the record lacks is not a key, except the body
    field: for it the content of the item's page is fetched, in the log
    the loop has reached, and the body is a key exactly when that fetch
    gave a text that is not empty, which is then its value. *)
Theorem fetch_content_keys h items h' :
  get_unprocessed_items w config h = (Return items, h') ->
  ∃ records,
    query_records w config h = Return records
    ∧ length items = length records
    ∧ ∀ k record, records !! k = Some record ->
        ∃ it props,
          items !! k = Some it
          ∧ py_get record (u"properties") (PyDict []) = Return (PyDict props)
          ∧ content_from_record w config props it
              (fetch_log_before w config records (h ++ [query_call config]) k)
              (fetch_log_before w config records (h ++ [query_call config])
                 (S k)).
Proof.
  unfold get_unprocessed_items, query_records, query_url, fetch_log_before,
    query_call, query_url.
  rewrite bind_run. unfold _make_request.
  destruct (notion_api _ _ _ _ _) as [e|e|body]; [discriminate..|].
  rewrite bind_run, lift_run.
  destruct (py_get body (u"results") (PyList [])) as [results|]; [|discriminate].
  rewrite bind_run, lift_run. simpl.
  destruct (py_iter results) as [records|]; [|discriminate].
  intros Hm. exists records. split; [done|].
  destruct (mapM_lookup _ _ _ _ _ Hm) as [Hlen Hat]. split; [done|].
  intros k record Hk. destruct (Hat k record Hk) as (it & Hit & Hrun).
  destruct (item_of_result_content _ _ _ _ Hrun) as (props & Hprops & Hc).
  by exists it, props.
Qed.

(** Under the store's shapes the item source does not raise. *)

Lemma block_texts_total blocks acc :
  forallb block_shape blocks = true ->
  ∃ parts, block_texts blocks acc = Return parts.
Proof.
  revert acc. induction blocks as [|b blocks IH]; intros acc; simpl.
  - by eexists.
  - intros [Hb Hbs]%andb_prop.
    destruct b as [| | | | | |d]; try discriminate. simpl in Hb.
    cbn [block_texts py_get mbind Res_bind].
    assert (Hdata : ∃ bd,
      py_get_dyn (PyDict d) (default (PyStr []) (dict_lookup (u"type") d))
        (PyDict []) = Return (PyDict bd)
      ∧ opt_field bd (u"rich_text") (array_of (obj_with (u"plain_text")))
        = true).
    { destruct (dict_lookup (u"type") d) as [[| | | |t| |]|]; try discriminate;
        simpl; unfold opt_field in Hb.
      - destruct (dict_lookup t d) as [[| | | | | |bd]|]; try discriminate;
          by eexists.
      - destruct (dict_lookup [] d) as [[| | | | | |bd]|]; try discriminate;
          by eexists. }
    destruct Hdata as (bd & -> & Hrt). cbn [py_contains mbind Res_bind].
    unfold opt_field in Hrt. destruct (bool_decide _) eqn:Hin; [|by apply IH].
    unfold py_get.
    destruct (dict_lookup (u"rich_text") bd) as [runs|]; cbn [default id].
    + cbn [mbind Res_bind].
      destruct (join_field_total [] (u"plain_text") runs Hrt) as [text ->].
      cbn [mbind Res_bind]. destruct (is_empty text); by apply IH.
    + cbn [mbind Res_bind]. rewrite join_field_default.
      cbn [mbind Res_bind is_empty]. by apply IH.
Qed.

Lemma _get_page_content_returns pid h :
  store_conforms w -> ∃ text, (_get_page_content w pid h).1 = Return text.
Proof.
  intros Hw. unfold _get_page_content, catch. rewrite bind_run.
  unfold _make_request.
  destruct (notion_api w h (u"GET") _ None) as [e|e|body] eqn:Hapi;
    [by eexists..|].
  apply (Hw h _ None body) in Hapi.
  destruct body as [| | | | | |d]; try discriminate. simpl in Hapi.
  rewrite bind_run, lift_run. unfold py_get, opt_field in *.
  destruct (dict_lookup (u"results") d) as [[| | | | |bl|]|];
    try discriminate; cbn [default id]; rewrite bind_run, lift_run;
    cbn [py_iter]; rewrite bind_run, lift_run.
  - simpl in Hapi. destruct (block_texts_total bl [] Hapi) as [parts ->].
    by eexists.
  - by eexists.
Qed.

Lemma find_title_total props :
  forallb (fun kv => attribute_value kv.2) props = true ->
  ∃ t, find_title props = Return t.
Proof.
  induction props as [|[k v] props IH]; simpl; [by eexists|].
  intros [Hv Hps]%andb_prop.
  destruct (extract_attribute_value v Hv) as (s & Hs & _).
  destruct v as [| | | | | |d]; try discriminate. simpl.
  destruct (py_eq_str _ _); [by rewrite Hs; eexists|by apply IH].
Qed.

Lemma attribute_value_lookup k props prop :
  forallb (fun kv => attribute_value kv.2) props = true ->
  dict_lookup k props = Some prop -> attribute_value prop = true.
Proof.
  induction props as [|[k' v] props IH]; simpl; [done|].
  intros [Hv Hps]%andb_prop. destruct (str_eqb k' k); [|by apply IH].
  by intros [= <-].
Qed.

Lemma collect_content_total props names acc :
  forallb (fun kv => attribute_value kv.2) props = true ->
  ∃ c, collect_content props names acc = Return c.
Proof.
  intros Hps. revert acc. induction names as [|n names IH]; intros acc; simpl.
  - by eexists.
  - destruct (dict_lookup n props) as [prop|] eqn:Hn; [|by apply IH].
    destruct (extract_attribute_value prop (attribute_value_lookup _ _ _ Hps Hn))
      as (s & -> & _).
    simpl. by apply IH.
Qed.

Ltac run_steps :=
  repeat first [rewrite bind_run | rewrite lift_run | progress cbn beta iota].

Lemma item_of_result_returns result h :
  store_conforms w -> record_shape result = true ->
  ∃ it, (item_of_result w config result h).1 = Return it.
Proof.
  intros Hw Hr. destruct result as [| | | | | |d]; try discriminate.
  simpl in Hr. unfold item_of_result, py_get, opt_field in *.
  assert (Hprops : ∃ props,
            default (PyDict []) (dict_lookup (u"properties") d) = PyDict props
            ∧ forallb (fun kv => attribute_value kv.2) props = true).
  { destruct (dict_lookup (u"properties") d) as [[| | | | | |props]|];
      try discriminate; by eexists. }
  destruct Hprops as (props & -> & Hps).
  run_steps. cbn [py_items].
  destruct (find_title_total props Hps) as [t ->].
  destruct (collect_content_total props (content_properties (notion config))
              [] Hps) as [c ->].
  run_steps.
  destruct (bool_decide (BODY ∈ content_properties (notion config)) && _).
  - run_steps.
    destruct (_get_page_content_returns
                (default (PyStr []) (dict_lookup (u"id") d)) h Hw)
      as [text Ht].
    destruct (_get_page_content w _ h) as [x h1]. simpl in Ht. subst x.
    by eexists.
  - by eexists.
Qed.

Lemma mapM_total {A B} (f : A -> M B) (ok : A -> bool) l h :
  (∀ a h, ok a = true -> ∃ b, (f a h).1 = Return b) ->
  forallb ok l = true ->
  ∃ bs, (mapM f l h).1 = Return bs ∧ length bs = length l.
Proof.
  intros Hf. revert h. induction l as [|a l IH]; intros h; simpl.
  - intros _. by exists [].
  - intros [Ha Hl]%andb_prop. rewrite bind_run.
    destruct (Hf a h Ha) as [b Hb].
    destruct (f a h) as [x h1]. simpl in Hb. subst x.
    rewrite bind_run. destruct (IH h1 Hl) as (bs & Hbs & Hlen).
    destruct (mapM f l h1) as [y h2]. simpl in Hbs. subst y.
    exists (b :: bs). simpl. by rewrite Hlen.
Qed.

(** When the store conforms and the query gets through, the fetch returns
    one item per record. *)
Lemma get_unprocessed_items_returns h :
  store_conforms w -> query_fails w config h = false ->
  ∃ records items,
    query_records w config h = Return records
    ∧ (get_unprocessed_items w config h).1 = Return items
    ∧ length items = length records.
Proof.
  intros Hw. unfold query_fails, query_records, get_unprocessed_items, query_url.
  rewrite bind_run. unfold _make_request.
  destruct (notion_api w h _ _ _) as [e|e|body] eqn:Hapi; [done..|].
  intros _. apply (Hw h _ _ body) in Hapi.
  destruct body as [| | | | | |d]; try discriminate. simpl in Hapi.
  rewrite bind_run, lift_run. unfold py_get, opt_field in *.
  cbn [mbind Res_bind].
  destruct (dict_lookup (u"results") d) as [[| | | | |records|]|];
    try discriminate; cbn [default id py_iter]; rewrite bind_run, lift_run.
  - simpl in Hapi.
    destruct (mapM_total (item_of_result w config) record_shape records
                (h ++ [NotionRequest (u"POST")
                         (BASE_URL ++ u"/databases/"
                          ++ database_id (notion config) ++ u"/query")
                         (Some (query_data config))])
                (fun a h0 Ha => item_of_result_returns a h0 Hw Ha) Hapi)
      as (items & Hitems & Hlen).
    by exists records, items.
  - by exists [], [].
Qed.

(** X20: a conforming store never ends the batch early.  When every
    answer of the store has the shape of its request (the query answered
    by a listing of records whose properties are attribute values of the
    shape of their kind, a request for page blocks answered by a listing of
    blocks whose texts are arrays of text runs) and the query gets
    through, the run returns exactly one result per record, whatever the
    model, the webhook and the later requests do. *)
Theorem run_on_conforming_store h :
  store_conforms w -> query_fails w config h = false ->
  ∃ records rs, query_records w config h = Return records
                ∧ (run w config false h).1 = Return rs
                ∧ length rs = length records.
Proof.
  intros Hw Hq.
  destruct (get_unprocessed_items_returns h Hw Hq)
    as (records & items & Hrec & Hitems & Hlen).
  destruct (get_unprocessed_items w config h) as [x h1] eqn:Hfetch.
  simpl in Hitems. subst x. rewrite run_unfold, Hfetch.
  destruct (run_loop_spec w config items h1) as (rs & Hrs & Hmap & _).
  destruct (run_loop w config items h1) as [x h2]. simpl in Hrs. subst x.
  destruct items as [|it items].
  - exists records, []. by destruct rs.
  - exists records, rs. split; [done|]. split; [done|].
    by rewrite <- Hlen, <- Hmap, length_map.
Qed.

(** What is raised while the items are built is never the client's own
    error: that one comes from a request only, and the request for the
    page content is guarded. *)

Lemma bind_no_client_error {A B} (m : Res A) (f : A -> Res B) :
  no_client_error m -> (∀ a, no_client_error (f a)) ->
  no_client_error (m ≫= f).
Proof. destruct m as [a|e]; simpl; [intros _ H; apply H|by intros H _]. Qed.

Lemma fmap_no_client_error {A B} (m : Res A) (f : A -> B) :
  no_client_error m -> no_client_error (f <$> m).
Proof. by destruct m. Qed.

Lemma py_get_no_client_error v key dflt : no_client_error (py_get v key dflt).
Proof. by destruct v. Qed.

Lemma py_iter_no_client_error v : no_client_error (py_iter v).
Proof. by destruct v. Qed.

Lemma py_join_no_client_error sep items : no_client_error (py_join sep items).
Proof. unfold py_join. by destruct (all_strs items). Qed.

Lemma res_mapM_no_client_error {A B} (f : A -> Res B) l :
  (∀ a, no_client_error (f a)) -> no_client_error (res_mapM f l).
Proof.
  intros Hf. induction l as [|a l IH]; simpl; [done|].
  specialize (Hf a). destruct (f a); [|done]. by destruct (res_mapM f l).
Qed.

Lemma join_field_no_client_error sep key v :
  no_client_error (join_field sep key v).
Proof.
  unfold join_field.
  apply bind_no_client_error; [apply py_iter_no_client_error|intros ts].
  apply bind_no_client_error; [|intros parts; apply py_join_no_client_error].
  apply res_mapM_no_client_error. intros t. apply py_get_no_client_error.
Qed.

Ltac no_client :=
  repeat first
    [ exact I
    | apply py_get_no_client_error
    | apply join_field_no_client_error
    | apply fmap_no_client_error
    | apply bind_no_client_error; [|intros ?]
    | match goal with
      | |- no_client_error (if ?b then _ else _) => destruct b
      end ].

Lemma extract_no_client_error prop :
  no_client_error (_extract_property_value prop).
Proof. unfold _extract_property_value. no_client. Qed.

Lemma find_title_no_client_error props : no_client_error (find_title props).
Proof.
  induction props as [|[k v] props IH]; simpl; [done|].
  apply bind_no_client_error; [apply py_get_no_client_error|intros t].
  destruct (py_eq_str t (u"title")); [apply extract_no_client_error|done].
Qed.

Lemma collect_content_no_client_error props names acc :
  no_client_error (collect_content props names acc).
Proof.
  revert acc. induction names as [|n names IH]; intros acc; simpl; [done|].
  destruct (dict_lookup n props) as [prop|]; [|done].
  apply bind_no_client_error; [apply extract_no_client_error|done].
Qed.

Lemma _get_page_content_no_client_error pid h :
  no_client_error (_get_page_content w pid h).1.
Proof.
  unfold _get_page_content, catch.
  match goal with |- context [(?m ≫= ?f) h] => destruct ((m ≫= f) h) as [[x|e] h1] end;
    [done|by destruct e].
Qed.

Lemma lift_bind_no_client_error {A B} (r : Res A) (k : A -> M B) h :
  no_client_error r -> (∀ a, no_client_error (k a h).1) ->
  no_client_error ((lift r ≫= k) h).1.
Proof.
  intros Hr Hk. rewrite bind_run, lift_run. destruct r as [a|e]; [apply Hk|done].
Qed.

Lemma item_of_result_no_client_error result h :
  no_client_error (item_of_result w config result h).1.
Proof.
  unfold item_of_result.
  apply lift_bind_no_client_error; [apply py_get_no_client_error|intros pid].
  apply lift_bind_no_client_error; [apply py_get_no_client_error|intros ps].
  apply lift_bind_no_client_error; [apply py_get_no_client_error|intros link].
  apply lift_bind_no_client_error; [by destruct ps|intros props].
  apply lift_bind_no_client_error; [apply find_title_no_client_error|intros t].
  apply lift_bind_no_client_error;
    [apply collect_content_no_client_error|intros c].
  rewrite bind_run.
  destruct (bool_decide _ && _); [|done].
  rewrite bind_run. pose proof (_get_page_content_no_client_error pid h) as Hp.
  by destruct (_get_page_content w pid h) as [[text|e] h1].
Qed.

Lemma mapM_no_client_error {A B} (f : A -> M B) l h :
  (∀ a h0, no_client_error (f a h0).1) -> no_client_error (mapM f l h).1.
Proof.
  intros Hf. revert h. induction l as [|a l IH]; intros h; simpl; [done|].
  rewrite bind_run. specialize (Hf a h).
  destruct (f a h) as [[b|e] h1]; [|done]. rewrite bind_run.
  specialize (IH h1). by destruct (mapM f l h1) as [[bs|e] h2].
Qed.

(** The fetch raises the client's error only when the query itself meets
    a transport failure. *)
Lemma fetch_client_error h msg :
  (get_unprocessed_items w config h).1 = Raise (NotionClientError msg) ->
  query_fails w config h = true.
Proof.
  unfold get_unprocessed_items, query_fails, query_url.
  rewrite bind_run. unfold _make_request.
  destruct (notion_api _ _ _ _ _) as [e|e|body]; [done..|].
  intros Hraise. exfalso.
  match type of Hraise with
  | (?m ?h0).1 = _ => assert (Hn : no_client_error (m h0).1)
  end.
  { apply lift_bind_no_client_error; [apply py_get_no_client_error|intros rs].
    apply lift_bind_no_client_error; [apply py_iter_no_client_error|intros l].
    apply mapM_no_client_error, item_of_result_no_client_error. }
  by rewrite Hraise in Hn.
Qed.

(** C6, as the code has it.  When the query for the unprocessed items
    meets a transport failure, the run returns the empty list of results
    and the query is the only request it has made.  Another exception
    raised while the fetch builds the items is not caught: the run raises
    it, with the requests of the fetch as the only ones made.  Once the
    items are fetched nothing ends the batch early: the run returns one
    result per item, in fetch order. *)
Theorem run_fetch_failure h :
  (query_fails w config h = true ->
   ∀ dry_run, run w config dry_run h = (Return [], h ++ [query_call config]))
  ∧ (query_fails w config h = false ->
     ∀ e h1, get_unprocessed_items w config h = (Raise e, h1) ->
       ∀ dry_run, run w config dry_run h = (Raise e, h1))
  ∧ (∀ items h1,
       get_unprocessed_items w config h = (Return items, h1) ->
       ∃ rs h2, run w config false h = (Return rs, h2)
                ∧ map item rs = items).
Proof.
  split; [|split].
  - intros [msg Hq]%get_unprocessed_items_query_fails dry_run.
    by rewrite run_unfold, Hq.
  - intros Hq e h1 Hfetch dry_run. rewrite run_unfold, Hfetch.
    destruct e as [| |msg| |]; try done.
    rewrite (fetch_client_error h msg) in Hq; [done|by rewrite Hfetch].
  - intros items h1 Hfetch. rewrite run_unfold, Hfetch.
    destruct (run_loop_spec w config items h1) as (rs & Hrs & Hmap & _).
    destruct (run_loop w config items h1) as [x h2]. simpl in Hrs. subst x.
    destruct items as [|it items].
    + exists [], h1. by destruct rs.
    + by exists rs, h2.
Qed.

End ItemSource.

(** * Further properties of the code *)


(** ** State committer and page content *)

Section NotionFacts.
Context {RT : PyRuntime}.
Variable w : World.
Variable config : AppConfig.

Lemma mark_as_processed_one_update_aux pid h :
  ∃ b, mark_as_processed w config pid h
       = (Return b, h ++ [commit_call config pid]).
Proof.
  unfold mark_as_processed, catch, commit_call, commit_url, commit_data.
  rewrite bind_run. unfold _make_request.
  destruct (notion_api w h _ _ _) as [e|e|body]; by eexists.
Qed.

(** X1: [mark_as_processed] makes exactly one request, the update of the
    page, and never raises: it returns [True] when the store answers the
    update and [False] when the update meets an HTTP or transport error. *)
Theorem mark_as_processed_one_update pid h :
  ∃ b, mark_as_processed w config pid h
       = (Return b, h ++ [commit_call config pid])
       ∧ (b = true
          ↔ ∃ body, notion_api w h (u"PATCH") (commit_url pid)
                      (Some (commit_data config)) = HttpOk body).
Proof.
  unfold mark_as_processed, catch, commit_call, commit_url, commit_data.
  rewrite bind_run. unfold _make_request.
  destruct (notion_api w h _ _ _) as [e|e|body].
  - exists false. split; [done|]. split; [done|]. by intros [? ?].
  - exists false. split; [done|]. split; [done|]. by intros [? ?].
  - exists true. split; [done|]. split; [by eexists|done].
Qed.

Lemma _get_page_content_log pid h :
  (_get_page_content w pid h).2 = h ++ [blocks_call pid].
Proof.
  unfold _get_page_content, catch, blocks_call, blocks_url.
  rewrite bind_run. unfold _make_request.
  destruct (notion_api w h _ _ _) as [e|e|body]; [done..|].
  rewrite bind_run, lift_run.
  destruct (py_get body _ _) as [blocks|e]; [|by destruct e].
  rewrite bind_run, lift_run.
  destruct (py_iter blocks) as [bl|e]; [|by destruct e].
  rewrite bind_run, lift_run.
  destruct (block_texts bl []) as [parts|e]; [done|by destruct e].
Qed.

(** X2: [_get_page_content] makes exactly one request, for the children of
    the page; when that request meets an HTTP or transport error the
    result is the empty text and nothing is raised. *)
Theorem page_content_soft_failure pid h :
  (_get_page_content w pid h).2 = h ++ [blocks_call pid]
  ∧ ((∀ body, notion_api w h (u"GET") (blocks_url pid) None ≠ HttpOk body) ->
     (_get_page_content w pid h).1 = Return []).
Proof.
  unfold _get_page_content, catch, blocks_call, blocks_url.
  rewrite bind_run. unfold _make_request.
  destruct (notion_api w h _ _ _) as [e|e|body]; [done..|].
  split; [|by intros H; destruct (H body)].
  rewrite bind_run, lift_run.
  destruct (py_get body _ _) as [blocks|e]; [|by destruct e].
  rewrite bind_run, lift_run.
  destruct (py_iter blocks) as [bl|e]; [|by destruct e].
  rewrite bind_run, lift_run.
  destruct (block_texts bl []) as [parts|e]; [done|by destruct e].
Qed.




End NotionFacts.

(** ** Item source *)

Lemma dict_lookup_set_ne k k' v d :
  k ≠ k' -> dict_lookup k' (dict_set k v d) = dict_lookup k' d.
Proof.
  intros Hne. induction d as [|[k0 v0] d IH]; simpl.
  - unfold str_eqb. by rewrite bool_decide_eq_false_2.
  - destruct (str_eqb k0 k) eqn:E; simpl.
    + apply str_eqb_eq in E. subst k0. unfold str_eqb.
      by rewrite bool_decide_eq_false_2.
    + by rewrite IH.
Qed.

Section ItemFacts.
Context {RT : PyRuntime}.
Variable w : World.
Variable config : AppConfig.

Lemma collect_content_value props names acc c n prop v :
  collect_content props names acc = Return c ->
  n ∈ names ∨ dict_lookup n acc = Some v ->
  dict_lookup n props = Some prop ->
  _extract_property_value prop = Return v ->
  dict_lookup n c = Some v.
Proof.
  intros Hc Hn Hprop Hv. revert acc Hc Hn.
  induction names as [|m names IH]; intros acc Hc Hn; simpl in Hc.
  - injection Hc as <-. destruct Hn as [Hn%elem_of_nil|Hn]; done.
  - destruct (decide (m = n)) as [->|Hne].
    + rewrite Hprop, Hv in Hc. simpl in Hc. apply (IH _ Hc). right.
      apply dict_lookup_set.
    + assert (Hn' : ∀ acc', dict_lookup n acc' = dict_lookup n acc ->
                n ∈ names ∨ dict_lookup n acc' = Some v).
      { intros acc' Heq. destruct Hn as [[?|?]%elem_of_cons|?];
          [congruence|by left|right; congruence]. }
      destruct (dict_lookup m props) as [p|].
      * destruct (_extract_property_value p) as [value|e]; [|discriminate].
        simpl in Hc. apply (IH _ Hc), Hn'. by apply dict_lookup_set_ne.
      * by apply (IH _ Hc), Hn'.
Qed.

(** X4: the fallback to the page content.  An item is built with at most
    one request, for the blocks of its own page, and with none when the
    body field is not configured.  When the record holds the body field
    with a text that is not empty, no request is made and the item keeps
    that text: the fallback never replaces it. *)
Theorem body_fallback_keeps_direct_value result h it h' :
  item_of_result w config result h = (Return it, h') ->
  (h' = h ∨ h' = h ++ [blocks_call (page_id it)])
  ∧ (BODY ∉ content_properties (notion config) -> h' = h)
  ∧ (∀ props prop s,
       py_get result (u"properties") (PyDict []) = Return (PyDict props) ->
       BODY ∈ content_properties (notion config) ->
       dict_lookup BODY props = Some prop ->
       _extract_property_value prop = Return (PyStr s) -> s ≠ [] ->
       h' = h ∧ dict_lookup BODY (content it) = Some (PyStr s)).
Proof.
  intros (pid & props & link & t & c & Hid & Hprops & Hurl & Ht & Hc & Hpid
          & _ & _ & Hbody)%item_of_result_inv.
  split; [|split].
  - destruct (_ && _).
    + destruct Hbody as (text & Hpc & _). right.
      pose proof (_get_page_content_log w pid h) as Hlog.
      rewrite Hpc in Hlog. simpl in Hlog. by rewrite Hpid.
    + left. by destruct Hbody.
  - intros Hnot. rewrite (bool_decide_eq_false_2 _ Hnot) in Hbody.
    by destruct Hbody.
  - intros props' prop s Hprops' Hin Hprop Hs Hne.
    rewrite Hprops in Hprops'. injection Hprops' as <-.
    assert (Hl : dict_lookup BODY c = Some (PyStr s)).
    { eapply collect_content_value; eauto. }
    rewrite Hl in Hbody. destruct s as [|ch s]; [done|].
    cbn [default id py_truthy is_empty negb] in Hbody.
    rewrite andb_false_r in Hbody. destruct Hbody as [-> ->]. done.
Qed.

Lemma find_title_none props t :
  Forall (fun kv => kind_of kv.2 ≠ Some (u"title")) props ->
  find_title props = Return t -> t = PyStr [].
Proof.
  induction props as [|[k v] props IH]; simpl.
  - by intros _ [= <-].
  - intros Hall. inversion Hall as [|?? Hv Hps]; subst. simpl in Hv.
    destruct v as [| | | | | |d]; try discriminate. simpl in *.
    destruct (dict_lookup (u"type") d) as [[| | | |ty| |]|]; simpl;
      try (by apply IH).
    destruct (str_eqb ty (u"title")) eqn:E; [|by apply IH].
    apply str_eqb_eq in E. by subst ty.
Qed.

(** X5: the title of an item is never empty or otherwise falsy; a record
    without a property of kind title gives the item the default title. *)
Theorem item_title_default result h it h' :
  item_of_result w config result h = (Return it, h') ->
  py_truthy (title it) = true
  ∧ (∀ props,
       py_get result (u"properties") (PyDict []) = Return (PyDict props) ->
       Forall (fun kv => kind_of kv.2 ≠ Some (u"title")) props ->
       title it = PyStr UNTITLED).
Proof.
  intros (pid & props & link & t & c & _ & Hprops & _ & Ht & _ & _ & _
          & Htitle & _)%item_of_result_inv.
  rewrite Htitle. split.
  - by destruct (py_truthy t) eqn:E.
  - intros props' Hprops' Hall. rewrite Hprops in Hprops'.
    injection Hprops' as <-. by rewrite (find_title_none props t Hall Ht).
Qed.

End ItemFacts.

(** ** Attribute extractor, kind by kind *)

Section ExtractorKinds.
Context {RT : PyRuntime}.





End ExtractorKinds.

(** ** Notifier and transformer *)

Lemma is_empty_nil {A} (l : list A) : is_empty l = true ↔ l = [].
Proof. by destruct l. Qed.

Lemma dict_lookup_app_l k d1 d2 v :
  dict_lookup k d1 = Some v -> dict_lookup k (d1 ++ d2) = Some v.
Proof.
  induction d1 as [|[k' v'] d1 IH]; simpl; [done|].
  by destruct (str_eqb k' k).
Qed.

Section ServiceFacts.
Context {RT : PyRuntime}.
Variable w : World.
Variable config : AppConfig.

(** X8: [send_message] posts exactly one payload to the webhook.  It
    returns [True] exactly when the webhook answers with the text "ok",
    [False] for any other answer, and raises [SlackClientError] exactly
    when the post meets an HTTP or transport error.  The payload always
    carries the text and carries the blocks when there are any. *)
Theorem send_message_acknowledged text blocks h :
  let reply := slack_webhook w h (webhook_url (slack config))
                 (payload_of config text blocks) in
  (send_message w config text blocks h).2
  = h ++ [slack_call config text blocks]
  ∧ ((send_message w config text blocks h).1 = Return true
     ↔ reply = HttpOk (u"ok"))
  ∧ ((∃ msg, (send_message w config text blocks h).1
             = Raise (SlackClientError msg))
     ↔ ∀ body, reply ≠ HttpOk body)
  ∧ dict_lookup (u"text") (match payload_of config text blocks with
                           | PyDict d => d | _ => [] end)
    = Some (PyStr text)
  ∧ (blocks ≠ [] ->
     dict_lookup (u"blocks") (match payload_of config text blocks with
                              | PyDict d => d | _ => [] end)
     = Some (PyList blocks)).
Proof.
  intros reply. subst reply. split; [apply send_message_log|].
  unfold send_message.
  destruct (slack_webhook w h _ _) as [e|e|body]; simpl.
  - split; [split; discriminate|]. split.
    + split; [intros _ body; discriminate|by eexists].
    + split; [done|]. intros Hb. by destruct blocks.
  - split; [split; discriminate|]. split.
    + split; [intros _ body; discriminate|by eexists].
    + split; [done|]. intros Hb. by destruct blocks.
  - split.
    + unfold str_eqb. split.
      * intros [= Hb%bool_decide_eq_true]. by subst.
      * intros [= ->]. by rewrite bool_decide_eq_true_2.
    + split.
      * split; [intros [msg Hm]; discriminate|intros H; by destruct (H body)].
      * split; [done|]. intros Hb. by destruct blocks.
Qed.

Lemma process_on_blank text h :
  forallb py_isspace text = true -> process w text h = (Return [], h).
Proof.
  intros H%strip_nil. unfold process. rewrite H. by rewrite orb_true_r.
Qed.

(** X9: [process] returns the empty text exactly when its input is blank,
    and calls the model, once and with the input unchanged, exactly when
    the input is not blank; whatever it raises is a [GeminiClientError]. *)
Theorem process_empty_iff_blank text h :
  ((process w text h).1 = Return [] ↔ forallb py_isspace text = true)
  ∧ (process w text h).2
    = (if forallb py_isspace text then h else h ++ [GenerateContent text])
  ∧ (∀ e, (process w text h).1 = Raise e -> ∃ msg, e = GeminiClientError msg).
Proof.
  destruct (forallb py_isspace text) eqn:Hb.
  - rewrite (process_on_blank text h Hb). split; [done|]. split; [done|].
    intros e. discriminate.
  - rewrite (process_not_blank w text h Hb).
    destruct (gemini_model w h text) as [e|[|c r]]; simpl;
      (split; [split; discriminate|]); (split; [done|]);
      intros e'; try discriminate; intros [= <-]; by eexists.
Qed.

End ServiceFacts.

(** ** Orchestrator, item by item *)

Section ItemRun.
Context {RT : PyRuntime}.
Variable w : World.
Variable config : AppConfig.

Lemma join_cons_length sep (p : list N) ps :
  length p <= length (join sep (p :: ps)).
Proof.
  destruct ps; simpl; [done|]. rewrite length_app. lia.
Qed.

(** X10: the composed input starts with the title heading, is never
    blank, and is the heading alone exactly when no content field holds a
    value; so an item is skipped exactly when the stripped input equals
    the heading. *)
Theorem input_is_heading_iff it :
  is_prefix (heading it) (_build_gemini_input it) = true
  ∧ strip (_build_gemini_input it) ≠ []
  ∧ (_build_gemini_input it = heading it ↔ filled it = [])
  ∧ (skipped it = true ↔ strip (_build_gemini_input it) = heading it).
Proof.
  assert (Hpre : ∀ (a b : list N), is_prefix a (a ++ b) = true).
  { induction a as [|x a IH]; intros b; simpl; [by destruct b|].
    by rewrite N.eqb_refl, IH. }
  assert (Hblank : strip (_build_gemini_input it) ≠ []).
  { intros H%strip_nil. by rewrite input_not_blank in H. }
  split; [|split; [done|split]].
  - unfold _build_gemini_input. destruct (map _ (filled it)); simpl.
    + pose proof (Hpre (heading it) []) as H. by rewrite app_nil_r in H.
    + apply Hpre.
  - unfold _build_gemini_input. split.
    + destruct (filled it) as [|kv l]; [done|]. cbn [map join].
      intros H. apply (f_equal length) in H. rewrite !length_app in H.
      simpl in H. lia.
    + by intros ->.
  - unfold skipped. destruct (strip (_build_gemini_input it)) eqn:E; [done|].
    simpl. apply str_eqb_eq.
Qed.

Lemma process_raises_message text h e :
  forallb py_isspace text = false ->
  (process w text h).1 = Raise e ->
  e = GeminiClientError NO_VALID_RESPONSE
  ∨ ∃ m, e = GeminiClientError (u"Gemini API呼び出しに失敗: " ++ m).
Proof.
  intros Hb. rewrite (process_not_blank w text h Hb).
  destruct (gemini_model w h text) as [m|[|c r]]; simpl; intros [= <-];
    [right; by eexists|by left].
Qed.

(** What the steps of an item add to the log, and what they return. *)
Lemma process_single_item_trace it h :
  let input := _build_gemini_input it in
  (skipped it = true
   ∧ process_single_item w config it h = (Return (failure it EMPTY_CONTENT), h))
  ∨ skipped it = false ∧
  ((∃ msg, (msg = NO_VALID_RESPONSE
             ∨ ∃ m, msg = u"Gemini API呼び出しに失敗: " ++ m)
            ∧ process_single_item w config it h
              = (Return (failure it msg), h ++ [GenerateContent input]))
  ∨ (∃ result msg,
       result ≠ []
       ∧ process_single_item w config it h
         = (Return (failure it (UNEXPECTED ++ msg)),
            h ++ [GenerateContent input]
              ++ [result_call config (title it) result (url it)]))
  ∨ (∃ result,
       result ≠ []
       ∧ process_single_item w config it h
         = (Return {| item := it; success := true; gemini_result := result;
                      error_message := [] |},
            h ++ [GenerateContent input]
              ++ [result_call config (title it) result (url it)]
              ++ [commit_call config (page_id it)]))).
Proof.
  intros input. subst input. rewrite process_single_item_unfold.
  destruct (skipped it); [by left|right; split; [done|]].
  pose proof (process_not_blank w _ h (input_not_blank it)) as Hp.
  pose proof (fun e => process_raises_message (_build_gemini_input it) h e
                         (input_not_blank it)) as Hr.
  destruct (process w (_build_gemini_input it) h) as [[result|e] h1].
  2:{ left. injection Hp as _ Hlog. subst h1.
      destruct (Hr e eq_refl) as [->|[m ->]]; eexists;
        (split; [|reflexivity]); [by left|right; by eexists]. }
  right. assert (Hne : result ≠ [] ∧ h1 = h ++ [GenerateContent (_build_gemini_input it)]).
  { destruct (gemini_model w h _) as [m|[|c r]]; try discriminate.
    injection Hp as Hres Hlog. by subst. }
  destruct Hne as [Hne ->]. destruct result as [|c r]; [done|].
  cbn [is_empty]. unfold send_processed_result.
  pose proof (send_message_log w config (fallback_text (title it) (c :: r))
                (result_blocks (title it) (c :: r) (url it))
                (h ++ [GenerateContent (_build_gemini_input it)])) as Hlog.
  destruct (send_message_cases w config (fallback_text (title it) (c :: r))
              (result_blocks (title it) (c :: r) (url it))
              (h ++ [GenerateContent (_build_gemini_input it)]))
    as [[b Hb]|[msg Hb]];
    destruct (send_message w config _ _ _) as [x h2]; simpl in Hb, Hlog;
    subst x h2.
  - right. exists (c :: r). split; [done|].
    destruct (mark_as_processed_one_update_aux w config (page_id it)
                ((h ++ [GenerateContent (_build_gemini_input it)]) ++
                 [SlackPost (webhook_url (slack config))
                    (payload_of config (fallback_text (title it) (c :: r))
                       (result_blocks (title it) (c :: r) (url it)))]))
      as [b' Hm].
    rewrite Hm. simpl. unfold result_call, slack_call.
    by rewrite <- !(assoc_L (++)).
  - left. exists (c :: r), msg. split; [done|]. simpl.
    unfold result_call, slack_call. by rewrite <- !(assoc_L (++)).
Qed.

Lemma failure_messages msg :
  msg = EMPTY_CONTENT ∨ msg = NO_VALID_RESPONSE
  ∨ (∃ m, msg = u"Gemini API呼び出しに失敗: " ++ m)
  ∨ (∃ m, msg = UNEXPECTED ++ m) ->
  msg ≠ [] ∧ msg ≠ NO_GEMINI_RESULT.
Proof.
  intros [->|[->|[[m ->]|[m ->]]]]; split; intros H; vm_compute in H;
    discriminate.
Qed.

(** The record of an item, case by case. *)
Lemma process_single_item_result it h r :
  (process_single_item w config it h).1 = Return r ->
  item r = it
  ∧ (success r = true -> gemini_result r ≠ [] ∧ error_message r = [])
  ∧ (success r = false ->
     gemini_result r = [] ∧ error_message r ≠ []
     ∧ error_message r ≠ NO_GEMINI_RESULT).
Proof.
  assert (Hfail : ∀ msg,
    msg = EMPTY_CONTENT ∨ msg = NO_VALID_RESPONSE
    ∨ (∃ m, msg = u"Gemini API呼び出しに失敗: " ++ m)
    ∨ (∃ m, msg = UNEXPECTED ++ m) ->
    Return (failure it msg) = Return r ->
    item r = it
    ∧ (success r = true -> gemini_result r ≠ [] ∧ error_message r = [])
    ∧ (success r = false ->
       gemini_result r = [] ∧ error_message r ≠ []
       ∧ error_message r ≠ NO_GEMINI_RESULT)).
  { intros msg Hmsg%failure_messages Hr. injection Hr as <-.
    cbn [failure item success gemini_result error_message].
    split; [reflexivity|]. split; [discriminate|]. intros _.
    split; [reflexivity|exact Hmsg]. }
  destruct (process_single_item_trace it h)
    as [[_ Hp]|[_ [(msg & Hmsg & Hp)|[(result & msg & Hne & Hp)
       |(result & Hne & Hp)]]]]; rewrite Hp; cbn [fst].
  - apply Hfail. by left.
  - apply Hfail. right. destruct Hmsg as [->|[m ->]]; [by left|].
    right. left. by exists m.
  - apply Hfail. right. right. right. by exists msg.
  - intros Hr. injection Hr as <-.
    cbn [item success gemini_result error_message].
    split; [reflexivity|]. split; [by intros _|discriminate].
Qed.

(** X11: the record of a processed item.  It carries the item; a success
    carries a result text that is not empty and no error message; a
    failure carries no result and an error message that is not empty.  The
    message for an empty answer of the transformer is never the one
    recorded, since the transformer is never given a blank input. *)
Theorem result_record_invariant it h r :
  (process_single_item w config it h).1 = Return r ->
  item r = it
  ∧ (success r = true -> gemini_result r ≠ [] ∧ error_message r = [])
  ∧ (success r = false ->
     gemini_result r = [] ∧ error_message r ≠ []
     ∧ error_message r ≠ NO_GEMINI_RESULT).
Proof. apply process_single_item_result. Qed.

(** X12: what an item costs.  The calls made while an item is processed
    extend the log; among them the only request to the store is the commit
    of the item's own page, made once when the item succeeds and not at all
    when it fails; and the model is called once, with the composed input,
    unless the item is skipped. *)
Theorem commit_only_after_success it h :
  ∃ r l,
    process_single_item w config it h = (Return r, h ++ l)
    ∧ List.filter is_notion_request l
      = (if success r then [commit_call config (page_id it)] else [])
    ∧ List.filter is_generate l
      = (if skipped it then []
         else [GenerateContent (_build_gemini_input it)]).
Proof.
  destruct (process_single_item_trace it h)
    as [[Hs ->]|[Hs [(msg & Hmsg & ->)|[(result & msg & Hne & ->)
       |(result & Hne & ->)]]]]; rewrite Hs.
  - exists (failure it EMPTY_CONTENT), []. by rewrite app_nil_r.
  - by eexists _, _.
  - by eexists _, _.
  - by eexists _, _.
Qed.



End ItemRun.

(** ** Dry run *)

Section DryRun.
Context {RT : PyRuntime}.
Variable w : World.
Variable config : AppConfig.





End DryRun.


(** ** Configuration *)

Lemma _get_required_env_cases env key :
  (is_set env key = true
   ∧ ∃ v, env key = Some v ∧ v ≠ [] ∧ _get_required_env env key = Loaded v)
  ∨ (is_set env key = false
     ∧ _get_required_env env key = ValueError (missing_message key)).
Proof.
  unfold _get_required_env, is_set, missing_message.
  destruct (env key) as [[|c v]|]; simpl; [by right| |by right].
  left. split; [done|]. by exists (c :: v).
Qed.

(** What [load_config] returns, variable by variable. *)
Lemma load_config_cases env :
  match load_config env with
  | Loaded cfg =>
      forallb (is_set env) REQUIRED = true
      ∧ env (u"NOTION_API_KEY") = Some (api_key (notion (app cfg)))
      ∧ env (u"NOTION_DATABASE_ID") = Some (database_id (notion (app cfg)))
      ∧ env (u"GEMINI_API_KEY") = Some (gemini_api_key (gemini cfg))
      ∧ env (u"SLACK_WEBHOOK_URL") = Some (webhook_url (slack (app cfg)))
      ∧ channel (slack (app cfg))
        = (if is_set env (u"SLACK_CHANNEL") then env (u"SLACK_CHANNEL")
           else None)
      ∧ content_properties (notion (app cfg))
        = parse_properties
            (getenv_or env (u"NOTION_CONTENT_PROPERTIES") (u"タイトル,本文"))
      ∧ system_instruction (gemini cfg)
        = replace2 92 110 NL
            (if is_set env (u"GEMINI_SYSTEM_INSTRUCTION")
             then getenv_or env (u"GEMINI_SYSTEM_INSTRUCTION") []
             else DEFAULT_SYSTEM_INSTRUCTION)
  | ValueError msg =>
      ∃ before key after,
        REQUIRED = before ++ key :: after
        ∧ forallb (is_set env) before = true
        ∧ is_set env key = false
        ∧ msg = missing_message key
  end.
Proof.
  unfold load_config.
  destruct (_get_required_env_cases env (u"NOTION_API_KEY"))
    as [[H1 (v1 & E1 & N1 & ->)]|[H1 ->]]; cbn [mbind Loading_bind].
  2:{ exists [], (u"NOTION_API_KEY"), (tail REQUIRED). by repeat split. }
  destruct (_get_required_env_cases env (u"NOTION_DATABASE_ID"))
    as [[H2 (v2 & E2 & N2 & ->)]|[H2 ->]]; cbn [mbind Loading_bind].
  2:{ exists [u"NOTION_API_KEY"], (u"NOTION_DATABASE_ID"),
        (tail (tail REQUIRED)).
      split; [done|]. split; [|done]. cbn [forallb]. by rewrite H1. }
  destruct (_get_required_env_cases env (u"GEMINI_API_KEY"))
    as [[H3 (v3 & E3 & N3 & ->)]|[H3 ->]]; cbn [mbind Loading_bind].
  2:{ exists [u"NOTION_API_KEY"; u"NOTION_DATABASE_ID"], (u"GEMINI_API_KEY"),
        [u"SLACK_WEBHOOK_URL"].
      split; [done|]. split; [|done]. cbn [forallb]. by rewrite H1, H2. }
  destruct (_get_required_env_cases env (u"SLACK_WEBHOOK_URL"))
    as [[H4 (v4 & E4 & N4 & ->)]|[H4 ->]]; cbn [mbind Loading_bind].
  2:{ exists [u"NOTION_API_KEY"; u"NOTION_DATABASE_ID"; u"GEMINI_API_KEY"],
        (u"SLACK_WEBHOOK_URL"), [].
      split; [done|]. split; [|done]. cbn [forallb]. by rewrite H1, H2, H3. }
  cbn [mret Loading_ret app gemini notion slack api_key database_id
       gemini_api_key webhook_url channel content_properties
       system_instruction].
  split; [unfold REQUIRED; cbn [forallb]; by rewrite H1, H2, H3, H4|].
  do 4 (split; [done|]). split; [|split; [done|]].
  - unfold is_set, getenv_or.
    by destruct (env (u"SLACK_CHANNEL")) as [[|c v]|].
  - unfold is_set, getenv_or.
    by destruct (env (u"GEMINI_SYSTEM_INSTRUCTION")) as [[|c v]|].
Qed.

(** X15: [load_config] returns a configuration exactly when the four
    required variables are set to texts that are not empty, and the
    configuration then holds their values; otherwise it raises a
    [ValueError] whose message names the first required variable, in the
    order they are read, that is unset or empty.  The channel of a loaded
    configuration is never the empty text. *)
Theorem load_config_required env :
  ((∃ cfg, load_config env = Loaded cfg)
   ↔ forallb (is_set env) REQUIRED = true)
  ∧ (∀ cfg, load_config env = Loaded cfg ->
       env (u"NOTION_API_KEY") = Some (api_key (notion (app cfg)))
       ∧ env (u"NOTION_DATABASE_ID") = Some (database_id (notion (app cfg)))
       ∧ env (u"GEMINI_API_KEY") = Some (gemini_api_key (gemini cfg))
       ∧ env (u"SLACK_WEBHOOK_URL") = Some (webhook_url (slack (app cfg)))
       ∧ channel (slack (app cfg)) ≠ Some [])
  ∧ (∀ msg, load_config env = ValueError msg ->
       ∃ before key after,
         REQUIRED = before ++ key :: after
         ∧ forallb (is_set env) before = true
         ∧ is_set env key = false
         ∧ msg = missing_message key).
Proof.
  pose proof (load_config_cases env) as H.
  destruct (load_config env) as [cfg|msg].
  - destruct H as (Hreq & E1 & E2 & E3 & E4 & Hch & _).
    split; [split; [done|by eexists]|]. split; [|discriminate].
    intros cfg' [= <-]. do 4 (split; [done|]). rewrite Hch.
    unfold is_set. by destruct (env (u"SLACK_CHANNEL")) as [[|c v]|].
  - destruct H as (before & key & after & Hsplit & Hb & Hk & ->).
    split; [split|].
    + by intros [? ?].
    + rewrite Hsplit, forallb_app. cbn [forallb]. rewrite Hk, andb_false_r.
      discriminate.
    + split; [discriminate|]. intros msg' [= <-].
      by exists before, key, after.
Qed.

(** *** The list of content properties *)

Lemma lstrip_suffix s : ∃ pre, s = pre ++ lstrip s.
Proof.
  induction s as [|c s [pre IH]]; [by exists []|]. simpl.
  destruct (py_isspace c); [|by exists []].
  exists (c :: pre). simpl. by rewrite <- IH.
Qed.

Lemma lstrip_head s c r : lstrip s = c :: r -> py_isspace c = false.
Proof.
  induction s as [|x s IH]; simpl; [done|].
  destruct (py_isspace x) eqn:E; [done|]. by intros [= <- _].
Qed.

(** The stripped text is a segment of the text; when it is not empty it
    starts and ends with characters that are no whitespace. *)
Lemma strip_shape s :
  (∃ pre post, s = pre ++ strip s ++ post)
  ∧ (strip s = []
     ∨ ∃ a, py_isspace a = false
            ∧ (strip s = [a]
               ∨ ∃ m b, py_isspace b = false ∧ strip s = a :: m ++ [b])).
Proof.
  unfold strip.
  destruct (lstrip_suffix s) as [pre Hpre].
  destruct (lstrip_suffix (rev (lstrip s))) as [post Hpost].
  split.
  - exists pre, (rev post). rewrite <- rev_app_distr, <- Hpost.
    by rewrite rev_involutive.
  - destruct (lstrip (rev (lstrip s))) as [|b m'] eqn:E2; [by left|right].
    pose proof (lstrip_head _ _ _ E2) as Hb.
    destruct (lstrip s) as [|a t] eqn:E1.
    { simpl in E2. discriminate. }
    pose proof (lstrip_head _ _ _ E1) as Ha. exists a. split; [done|].
    assert (Hrev : rev (b :: m') ++ rev post = a :: t).
    { rewrite <- rev_app_distr, <- Hpost. apply rev_involutive. }
    simpl in Hrev. simpl.
    destruct (rev m') as [|x m] eqn:Em; simpl in *.
    + injection Hrev as -> _. by left.
    + injection Hrev as -> _. right. by exists m, b.
Qed.

Lemma strip_idem s : strip (strip s) = strip s.
Proof.
  destruct (strip_shape s) as [_ [->|(a & Ha & [->|(m & b & Hb & ->)])]].
  - reflexivity.
  - unfold strip. simpl. rewrite Ha. simpl. by rewrite Ha.
  - by apply strip_keep.
Qed.

Lemma split_on_no_sep sep s :
  Forall (fun p => sep ∉ p) (split_on sep s).
Proof.
  induction s as [|c s IH]; simpl.
  - constructor; [apply not_elem_of_nil|constructor].
  - destruct (c =? sep)%N eqn:E.
    + constructor; [apply not_elem_of_nil|done].
    + apply N.eqb_neq in E.
      destruct (split_on sep s) as [|p ps]; inversion IH; subst;
        (constructor; [|done]).
      * rewrite elem_of_cons. intros [->|Hin%elem_of_nil]; done.
      * rewrite elem_of_cons. intros [->|Hin]; done.
Qed.

Lemma split_on_app_sep sep p rest :
  sep ∉ p -> split_on sep (p ++ sep :: rest) = p :: split_on sep rest.
Proof.
  induction p as [|c p IH]; intros Hp; simpl.
  - by rewrite N.eqb_refl.
  - rewrite not_elem_of_cons in Hp. destruct Hp as [Hc Hp].
    assert ((c =? sep)%N = false) as -> by (apply N.eqb_neq; congruence).
    by rewrite IH.
Qed.

Lemma split_on_whole sep p : sep ∉ p -> split_on sep p = [p].
Proof.
  induction p as [|c p IH]; intros Hp; simpl; [done|].
  rewrite not_elem_of_cons in Hp. destruct Hp as [Hc Hp].
  assert ((c =? sep)%N = false) as -> by (apply N.eqb_neq; congruence).
  by rewrite IH.
Qed.

Lemma split_on_join sep names :
  names ≠ [] -> Forall (fun p => sep ∉ p) names ->
  split_on sep (join [sep] names) = names.
Proof.
  induction names as [|p names IH]; [done|]. intros _ Hall.
  inversion Hall as [|?? Hp Hnames]; subst.
  destruct names as [|q names].
  - simpl. by apply split_on_whole.
  - change (join [sep] (p :: q :: names))
      with (p ++ sep :: join [sep] (q :: names)).
    rewrite split_on_app_sep by done. by rewrite IH.
Qed.

Lemma parse_properties_clean raw :
  Forall clean_name (parse_properties raw).
Proof.
  unfold parse_properties. apply Forall_forall. intros p Hp.
  apply in_map_iff in Hp. destruct Hp as (q & <- & Hq).
  apply filter_In in Hq. destruct Hq as [Hq Hne].
  pose proof (split_on_no_sep 44%N raw) as Hsep.
  rewrite Forall_forall in Hsep. apply Hsep in Hq.
  split; [by destruct (strip q)|]. split; [apply strip_idem|].
  intros Hin. apply Hq.
  destruct (strip_shape q) as [(pre & post & Heq) _]. rewrite Heq.
  rewrite !elem_of_app. tauto.
Qed.

Lemma parse_properties_join names :
  Forall clean_name names -> parse_properties (join [44%N] names) = names.
Proof.
  intros Hall. unfold parse_properties.
  destruct names as [|p names]; [done|].
  rewrite split_on_join; [|done|].
  2:{ eapply Forall_impl; [|exact Hall]. by intros q (_ & _ & ?). }
  induction Hall as [|q qs (Hne & Hs & _) _ IH]; [done|].
  cbn [List.filter]. rewrite Hs. destruct q as [|c q]; [done|].
  cbn [is_empty negb map]. by rewrite Hs, IH.
Qed.

(** X16: the configured list of content properties.  Every name in it is
    not empty, has no whitespace at either end and holds no comma.  A
    comma-separated list of such names is read back as exactly those
    names, in order.  Without the variable the list is the two default
    fields; with the variable set to the empty text the list is empty. *)
Theorem load_config_properties env cfg :
  load_config env = Loaded cfg ->
  let props := content_properties (notion (app cfg)) in
  Forall clean_name props
  ∧ (∀ names, Forall clean_name names ->
       env (u"NOTION_CONTENT_PROPERTIES") = Some (join [44%N] names) ->
       props = names)
  ∧ (env (u"NOTION_CONTENT_PROPERTIES") = None -> props = [u"タイトル"; BODY])
  ∧ (env (u"NOTION_CONTENT_PROPERTIES") = Some [] -> props = []).
Proof.
  intros Hload props. subst props.
  pose proof (load_config_cases env) as H. rewrite Hload in H.
  destruct H as (_ & _ & _ & _ & _ & _ & -> & _).
  split; [apply parse_properties_clean|]. unfold getenv_or.
  split; [|split].
  - intros names Hnames ->. by apply parse_properties_join.
  - intros ->. vm_compute. reflexivity.
  - by intros ->.
Qed.

(** *** The system instruction *)

Lemma replace2_head y r :
  y ≠ 110%N ->
  ∃ c rest, replace2 92 110 NL (y :: r) = c :: rest ∧ c ≠ 110%N.
Proof.
  intros Hy. destruct r as [|z r]; simpl; [by eexists _, _|].
  destruct ((y =? 92) && (z =? 110))%N; simpl; by eexists _, _.
Qed.

Lemma replace2_cons2 x y r :
  replace2 92 110 NL (x :: y :: r)
  = (if (x =? 92)%N && (y =? 110)%N then NL ++ replace2 92 110 NL r
     else x :: replace2 92 110 NL (y :: r)).
Proof. reflexivity. Qed.

Lemma replace2_no_pair_bounded n s :
  length s <= n ->
  is_substring BACKSLASH_N (replace2 92 110 NL s) = false.
Proof.
  revert s. induction n as [|n IH]; intros s Hn.
  - destruct s; [done|simpl in Hn; lia].
  - destruct s as [|x [|y r]]; [done| |].
    + simpl. by rewrite andb_false_r.
    + rewrite replace2_cons2.
      destruct ((x =? 92) && (y =? 110))%N eqn:E.
      * change (NL ++ replace2 92 110 NL r) with (10%N :: replace2 92 110 NL r).
        cbn [is_substring]. rewrite (IH r) by (simpl in Hn; lia).
        reflexivity.
      * cbn [is_substring]. rewrite (IH (y :: r)) by (simpl in Hn |- *; lia).
        rewrite orb_false_r. unfold BACKSLASH_N. cbn [is_prefix].
        destruct (92 =? x)%N eqn:Ex; [|done]. apply N.eqb_eq in Ex. subst x.
        rewrite N.eqb_refl in E. simpl in E. apply N.eqb_neq in E.
        destruct (replace2_head y r E) as (c & rest & -> & Hc).
        cbn [is_prefix]. assert ((110 =? c)%N = false) as ->; [|done].
        apply N.eqb_neq. congruence.
Qed.

Lemma replace2_nil s : replace2 92 110 NL s = [] -> s = [].
Proof.
  destruct s as [|x [|y r]]; simpl; [done..|].
  by destruct ((x =? 92) && (y =? 110))%N.
Qed.

(** X17: the system instruction of a loaded configuration is not empty
    and holds no backslash followed by the letter n: every such pair of the
    given text has become a newline.  When the variable is unset or empty
    the instruction is the built-in default. *)
Theorem load_config_instruction env cfg :
  load_config env = Loaded cfg ->
  is_substring BACKSLASH_N (system_instruction (gemini cfg)) = false
  ∧ system_instruction (gemini cfg) ≠ []
  ∧ (is_set env (u"GEMINI_SYSTEM_INSTRUCTION") = false ->
     system_instruction (gemini cfg) = DEFAULT_SYSTEM_INSTRUCTION)
  ∧ (∀ v, env (u"GEMINI_SYSTEM_INSTRUCTION") = Some v -> v ≠ [] ->
       system_instruction (gemini cfg) = replace2 92 110 NL v).
Proof.
  intros Hload. pose proof (load_config_cases env) as H. rewrite Hload in H.
  destruct H as (_ & _ & _ & _ & _ & _ & _ & ->).
  split; [by eapply replace2_no_pair_bounded|]. split; [|split].
  - intros Hnil%replace2_nil. unfold is_set, getenv_or in Hnil.
    destruct (env (u"GEMINI_SYSTEM_INSTRUCTION")) as [[|c v]|];
      simpl in Hnil; try discriminate; vm_compute in Hnil; discriminate.
  - intros ->. vm_compute. reflexivity.
  - intros v Hv Hne. unfold is_set, getenv_or. rewrite Hv.
    by destruct v.
Qed.

(** ** Exit status *)

Section ExitStatus.
Context {RT : PyRuntime}.



End ExitStatus.

(** ** Closed examples *)

#[local] Existing Instance bare_runtime.

Lemma extract_checkbox_witness :
  _extract_property_value (PyDict checked_box) = Return (PyStr (u"True")).
Proof.
  apply (proj1 (extract_checkbox checked_box eq_refl) true). reflexivity.
Defined.

(** C8 as stated fails: the checked box is rendered "True", not "true". *)
Lemma checkbox_not_lowercase :
  _extract_property_value (PyDict checked_box) = Return (PyStr (u"True"))
  ∧ _extract_property_value (PyDict checked_box) ≠ Return (PyStr (u"true")).
Proof. split; [reflexivity|]. vm_compute. discriminate. Qed.

Lemma extract_number_null_witness :
  _extract_property_value (PyDict null_number) = Return (PyStr (u"None")).
Proof.
  apply (proj1 (extract_number_null null_number eq_refl)). reflexivity.
Defined.

Lemma extract_total_witness :
  ∃ s, _extract_property_value date_range = Return (PyStr s)
       ∧ (supported_kind date_range = false -> s = []).
Proof. apply (extract_total date_range). reflexivity. Defined.

Example batch_fetch :
  get_unprocessed_items batch_world example_config []
  = (Return batch_items, [query_call example_config]).
Proof. vm_compute. reflexivity. Qed.

(** The run over the three records: the second fails, the first and the
    third succeed. *)
Example batch_run :
  map success <$> (run batch_world example_config false []).1
  = Return [true; false; true].
Proof. vm_compute. reflexivity. Qed.

Lemma run_isolates_failures_witness :
  ∃ rs h2,
    run batch_world example_config false [] = (Return rs, h2)
    ∧ length rs = length batch_items
    ∧ map item rs = batch_items
    ∧ ∀ k it, batch_items !! k = Some it ->
        let hk := log_before batch_world example_config batch_items
                    [query_call example_config] k in
        ∃ r, rs !! k = Some r
             ∧ (process_single_item batch_world example_config it hk).1
               = Return r
             ∧ (∀ e, (process batch_world (_build_gemini_input it) hk).1
                     = Raise e -> success r = false)
             ∧ success r = item_succeeds batch_world example_config it hk.
Proof.
  apply (run_isolates_failures batch_world example_config [] batch_items
           [query_call example_config]).
  vm_compute. reflexivity.
Defined.

Example fallback_fetch :
  get_unprocessed_items fallback_world example_config []
  = (Return [fallback_item],
     [query_call example_config; blocks_call (PyStr (u"p5"))]).
Proof. vm_compute. reflexivity. Qed.

Lemma fetch_content_keys_witness :
  ∃ records,
    query_records fallback_world example_config [] = Return records
    ∧ length [fallback_item] = length records
    ∧ ∀ k record, records !! k = Some record ->
        ∃ it props,
          [fallback_item] !! k = Some it
          ∧ py_get record (u"properties") (PyDict []) = Return (PyDict props)
          ∧ content_from_record fallback_world example_config props it
              (fetch_log_before fallback_world example_config records
                 ([] ++ [query_call example_config]) k)
              (fetch_log_before fallback_world example_config records
                 ([] ++ [query_call example_config]) (S k)).
Proof.
  apply (fetch_content_keys fallback_world example_config [] [fallback_item]
           [query_call example_config; blocks_call (PyStr (u"p5"))]).
  vm_compute. reflexivity.
Defined.

Example batch_world_conforms : store_conforms batch_world.
Proof.
  intros h url data body. split; intros H; vm_compute in H;
    injection H as <-; vm_compute; reflexivity.
Qed.

Lemma run_on_conforming_store_witness :
  ∃ records rs,
    query_records batch_world example_config [] = Return records
    ∧ (run batch_world example_config false []).1 = Return rs
    ∧ length rs = length records.
Proof.
  apply (run_on_conforming_store batch_world example_config []).
  - exact batch_world_conforms.
  - reflexivity.
Defined.

Lemma run_fetch_failure_witness :
  run notion_down example_config false []
  = (Return [], [] ++ [query_call example_config])
  ∧ run team_world team_config false []
    = (Raise (TypeError []), [query_call team_config])
  ∧ ∃ rs h2, run batch_world example_config false [] = (Return rs, h2)
             ∧ map item rs = batch_items.
Proof.
  split; [|split].
  - apply (proj1 (run_fetch_failure notion_down example_config [])).
    reflexivity.
  - apply (proj1 (proj2 (run_fetch_failure team_world team_config []))).
    + reflexivity.
    + vm_compute. reflexivity.
  - apply (proj2 (proj2 (run_fetch_failure batch_world example_config []))
             batch_items [query_call example_config]).
    vm_compute. reflexivity.
Defined.

(** C6 as stated fails: the query gets through and no request meets a
    transport failure, yet the batch ends early.  The second record holds
    a user without a name, the extractor raises [TypeError] on it, and the
    run raises it: no item is processed and no result is returned. *)
Lemma unreadable_record_ends_batch :
  query_fails team_world team_config [] = false
  ∧ run team_world team_config false []
    = (Raise (TypeError []), [query_call team_config])
  ∧ ∀ rs, (run team_world team_config false []).1 ≠ Return rs.
Proof.
  split; [reflexivity|]. split; [vm_compute; reflexivity|].
  intros rs. vm_compute. discriminate.
Qed.

Lemma notify_commit_best_effort_witness :
  ∃ h3, process_single_item soft_failures example_config plan_item []
        = (Return {| item := plan_item; success := true;
                     gemini_result := u"summary"; error_message := [] |}, h3).
Proof.
  eexists.
  eapply (proj1 (notify_commit_best_effort soft_failures example_config
                   plan_item [] (u"summary")
                   [GenerateContent (_build_gemini_input plan_item)]
                   eq_refl eq_refl) false _ false _);
    vm_compute; reflexivity.
Defined.

(** C2 as stated fails: the transform succeeds, the success notification
    raises, and the recorded outcome is a failure. *)
Lemma notify_exception_fails_item :
  (process slack_down (_build_gemini_input plan_item) []).1
  = Return (u"summary")
  ∧ (process_single_item slack_down example_config plan_item []).1
    = Return (failure plan_item
                (UNEXPECTED ++ u"Slack送信エラー: " ++ u"503 Server Error"))
  ∧ success (failure plan_item
               (UNEXPECTED ++ u"Slack送信エラー: " ++ u"503 Server Error"))
    = false.
Proof. repeat split; vm_compute; reflexivity. Qed.

(** C3 at the failing input: every content field of the item is blank and
    the composed input is just the title heading, yet the item is not
    skipped: the model is called with the heading and the item succeeds. *)
Theorem empty_content_not_skipped :
  Forall (fun kv => py_truthy kv.2 = false) (content spaced_item)
  ∧ _build_gemini_input spaced_item = heading spaced_item
  ∧ skipped spaced_item = false
  ∧ (process_single_item all_fine example_config spaced_item []).1
    = Return {| item := spaced_item; success := true;
                gemini_result := u"summary"; error_message := [] |}
  ∧ GenerateContent (u"# Plan ")
    ∈ (process_single_item all_fine example_config spaced_item []).2.
Proof.
  split; [by repeat constructor|].
  repeat split; try (vm_compute; reflexivity).
  vm_compute. apply list_elem_of_here.
Qed.

Lemma process_blank_witness :
  process all_fine (u"  " ++ NL) [] = (Return [], []).
Proof. apply (process_blank all_fine (u"  " ++ NL) []). reflexivity. Defined.

(** C4 as stated fails: on the empty text [process] returns normally. *)
Lemma process_blank_returns :
  process all_fine [] [] = (Return [], [])
  ∧ ∀ e, (process all_fine [] []).1 ≠ Raise e.
Proof. split; [reflexivity|]. intros e. vm_compute. discriminate. Qed.

(** C9 as stated fails: the body field is configured, the record lacks
    it, and the item has no such key. *)
Lemma missing_field_is_no_key :
  (get_unprocessed_items sparse_world example_config []).1
  = Return [sparse_item]
  ∧ content_properties (notion example_config) = [u"タイトル"; BODY]
  ∧ dict_keys (content sparse_item) = [u"タイトル"]
  ∧ BODY ∉ dict_keys (content sparse_item).
Proof.
  repeat split; try (vm_compute; reflexivity).
  intros H%list_elem_of_In. vm_compute in H. by destruct H as [H|[]].
Qed.

(** *** Closed examples of the further properties *)


Lemma body_fallback_keeps_direct_value_witness :
  item_of_result batch_world example_config plan_record []
  = (Return plan_item, [])
  ∧ ∀ props prop s,
      py_get plan_record (u"properties") (PyDict []) = Return (PyDict props) ->
      BODY ∈ content_properties (notion example_config) ->
      dict_lookup BODY props = Some prop ->
      _extract_property_value prop = Return (PyStr s) -> s ≠ [] ->
      dict_lookup BODY (content plan_item) = Some (PyStr s).
Proof.
  assert (H : item_of_result batch_world example_config plan_record []
              = (Return plan_item, [])) by (vm_compute; reflexivity).
  split; [exact H|].
  intros props prop s Hprops Hin Hprop Hs Hne.
  exact (proj2 (proj2 (proj2 (body_fallback_keeps_direct_value
                                batch_world example_config plan_record []
                                plan_item [] H))
                  props prop s Hprops Hin Hprop Hs Hne)).
Defined.

Lemma item_title_default_witness :
  item_of_result batch_world example_config plan_record []
  = (Return plan_item, [])
  ∧ py_truthy (title plan_item) = true.
Proof.
  assert (H : item_of_result batch_world example_config plan_record []
              = (Return plan_item, [])) by (vm_compute; reflexivity).
  split; [exact H|].
  exact (proj1 (item_title_default batch_world example_config plan_record []
                  plan_item [] H)).
Defined.

Lemma result_record_invariant_witness :
  ∃ r,
    (process_single_item batch_world example_config bad_item []).1 = Return r
    ∧ item r = bad_item
    ∧ success r = false
    ∧ error_message r ≠ NO_GEMINI_RESULT.
Proof.
  exists (failure bad_item (u"Gemini API呼び出しに失敗: " ++ u"quota exceeded")).
  assert (H : (process_single_item batch_world example_config bad_item []).1
              = Return (failure bad_item
                          (u"Gemini API呼び出しに失敗: " ++ u"quota exceeded")))
    by (vm_compute; reflexivity).
  split; [exact H|].
  destruct (result_record_invariant batch_world example_config bad_item [] _ H)
    as (Hitem & _ & Hfail).
  split; [exact Hitem|]. split; [reflexivity|].
  exact (proj2 (proj2 (Hfail eq_refl))).
Defined.


Lemma load_config_properties_witness :
  ∃ cfg,
    load_config example_env = Loaded cfg
    ∧ content_properties (notion (app cfg)) = [u"要約"; BODY]
    ∧ Forall clean_name (content_properties (notion (app cfg))).
Proof.
  destruct (load_config example_env) as [cfg|msg] eqn:Hload.
  - exists cfg. split; [reflexivity|]. split.
    + vm_compute in Hload. injection Hload as <-. vm_compute. reflexivity.
    + exact (proj1 (load_config_properties example_env cfg Hload)).
  - vm_compute in Hload. discriminate.
Defined.

Lemma load_config_instruction_witness :
  ∃ cfg,
    load_config example_env = Loaded cfg
    ∧ system_instruction (gemini cfg) = u"Summarise" ++ NL ++ u"briefly"
    ∧ is_substring BACKSLASH_N (system_instruction (gemini cfg)) = false.
Proof.
  destruct (load_config example_env) as [cfg|msg] eqn:Hload.
  - exists cfg. split; [reflexivity|]. split.
    + vm_compute in Hload. injection Hload as <-. vm_compute. reflexivity.
    + exact (proj1 (load_config_instruction example_env cfg Hload)).
  - vm_compute in Hload. discriminate.
Defined.
